(** * Timetable consolidation and trip matching of [scrape.py]

    A shallow embedding of [parse_path] (the run matrix builder),
    [build_table] (the trip matcher) and [main] of [src/scrape.py],
    with the properties of its specification stated over it.

    Conventions of the embedding:
    - a [datetime] produced by [strptime(s, '%H:%M')] is the number of
      minutes since 1900-01-01 00:00, an integer [Z]; adding or subtracting
      a [timedelta] is integer addition (no wrap-around at midnight: the
      date simply changes);
    - a walking time [delta * MINUTE] is an integer number of minutes;
    - a Python [str] is a [string]; Python orders strings by code point,
      which on UTF-8 encoded text is the byte-wise order of
      [String.compare];
    - a raised exception is the [Raise] result of the error monad. *)

From stdpp Require Import gmap strings list sorting pretty.

Local Open Scope Z_scope.

(** ** Exceptions and the error monad *)

Inductive exn :=
  | ValueError (msg : string)
  | IndexError
  | KeyError
  | AssertionError (lens : nat * nat)
  | SystemExit (code : Z).

Inductive result (A : Type) :=
  | Ok (a : A)
  | Raise (e : exn).
Arguments Ok {A} a.
Arguments Raise {A} e.

#[global] Instance result_ret : MRet result := λ A a, Ok a.
#[global] Instance result_bind : MBind result := λ A B f m,
  match m with Ok a => f a | Raise e => Raise e end.
#[global] Instance result_fmap : FMap result := λ A B f m,
  match m with Ok a => Ok (f a) | Raise e => Raise e end.

#[global] Instance exn_eq_dec : EqDecision exn.
Proof. solve_decision. Defined.

(** ** Python's rich comparison on the values the program orders

    [cmp] is the three-way comparison behind [<], [>] and [==]; on tuples
    Python compares the first components that differ. *)

Class Ord (A : Type) := cmp : A → A → comparison.

(** What the proofs need of a comparison: it is a strict total order. *)
Class OrdLaws (A : Type) `{Ord A} := {
  cmp_eq (x y : A) : cmp x y = Eq ↔ x = y;
  cmp_antisym (x y : A) : cmp y x = CompOpp (cmp x y);
  cmp_lt_trans (x y z : A) : cmp x y = Lt → cmp y z = Lt → cmp x z = Lt
}.

Definition py_lt {A} `{Ord A} (x y : A) : bool :=
  match cmp x y with Lt => true | _ => false end.
Definition py_gt {A} `{Ord A} (x y : A) : bool := py_lt y x.

#[global] Instance Z_ord : Ord Z := Z.compare.
#[global] Instance nat_ord : Ord nat := Nat.compare.
#[global] Instance string_ord : Ord string := String.compare.

Definition cmp_pair {A B} `{Ord A, Ord B} (p q : A * B) : comparison :=
  match cmp p.1 q.1 with
  | Eq => cmp p.2 q.2
  | c => c
  end.

#[global] Instance prod_ord {A B} `{Ord A, Ord B} : Ord (A * B) := cmp_pair.

(** [max(iterable)] and [min(iterable)]: the first greatest (least) item;
    [ValueError] on an empty iterable. *)

Fixpoint max_from {A} `{Ord A} (best : A) (l : list A) : A :=
  match l with
  | [] => best
  | x :: l' => max_from (if py_gt x best then x else best) l'
  end.

Fixpoint min_from {A} `{Ord A} (best : A) (l : list A) : A :=
  match l with
  | [] => best
  | x :: l' => min_from (if py_lt x best then x else best) l'
  end.

Definition py_max {A} `{Ord A} (l : list A) : result A :=
  match l with
  | [] => Raise (ValueError "max() arg is an empty sequence")
  | x :: l' => Ok (max_from x l')
  end.

Definition py_min {A} `{Ord A} (l : list A) : result A :=
  match l with
  | [] => Raise (ValueError "min() arg is an empty sequence")
  | x :: l' => Ok (min_from x l')
  end.

(** A [for] loop over a list whose body updates the loop state and may
    raise. *)

Fixpoint py_for {A S} (body : A → S → result S) (l : list A) (s : S)
    : result S :=
  match l with
  | [] => Ok s
  | x :: l' => s' ← body x s; py_for body l' s'
  end.

(** ** The trip matcher: [build_table] *)

(** One entry of a run: a time, or [None] where the page shows ['|']. *)
Definition run : Type := list (option Z).

(** A route+direction as [parse_path] returns it: [(stops, timetable)]. *)
Definition route : Type := list string * list run.

(** The value of [parse_line]: [dict.items()] in insertion order. *)
Definition linedata : Type := list (string * route).

(** [(i, stop, delta * MINUTE)] *)
Definition idx_entry : Type := nat * string * Z.

(** [((leave, board, orig), (arrive, descend, dest), line)] *)
Definition trip : Type := (Z * Z * string) * (Z * Z * string) * string.

Inductive direction := Home2Office | Office2Home.

#[global] Instance direction_eq_dec : EqDecision direction.
Proof. solve_decision. Defined.

Definition ambiguous_msg : string :=
  "trips that go from home to office and back or viceversa are not supported".

Fixpoint filter_idx_from (i : nat) (stopnames : list string)
    (filtered : gmap string Z) : list idx_entry :=
  match stopnames with
  | [] => []
  | stop :: rest =>
      match filtered !! stop with
      | None => filter_idx_from (S i) rest filtered
      | Some delta => (i, stop, delta) :: filter_idx_from (S i) rest filtered
      end
  end.

Definition filter_idx (stopnames : list string) (filtered : gmap string Z)
    : list idx_entry :=
  filter_idx_from 0 stopnames filtered.

(** The generator [get_stops], consumed to its end by [max] or [min];
    [thetimes[idx]] raises [IndexError] past the end of the run. *)
Fixpoint get_stops (idxlist : list idx_entry) (thetimes : run)
    : result (list (Z * string * Z)) :=
  match idxlist with
  | [] => Ok []
  | (idx, stop, delta) :: rest =>
      match thetimes !! idx with
      | None => Raise IndexError
      | Some None => get_stops rest thetimes
      | Some (Some time) =>
          l ← get_stops rest thetimes; Ok ((time, stop, delta) :: l)
      end
  end.

Definition orig_candidate (e : Z * string * Z) : Z * Z * string :=
  let '(time, stop, delta) := e in (time - delta, time, stop).

Definition dest_candidate (e : Z * string * Z) : Z * Z * string :=
  let '(time, stop, delta) := e in (time + delta, time, stop).

(** Lines 98-108: the direction of a route, with the origin-side and
    destination-side index lists. *)
Definition classify (stops : list string) (home office : gmap string Z)
    : result (direction * list idx_entry * list idx_entry) :=
  let idx_home := filter_idx stops home in
  let idx_office := filter_idx stops office in
  max_home ← py_max idx_home;
  min_office ← py_min idx_office;
  if py_lt max_home min_office then Ok (Home2Office, idx_home, idx_office)
  else
    max_office ← py_max idx_office;
    min_home ← py_min idx_home;
    if py_lt max_office min_home then Ok (Office2Home, idx_office, idx_home)
    else Raise (ValueError ambiguous_msg).

(** Lines 111-116, the body of the loop over the runs: [Ok None] is the
    [continue] of the [except ValueError] clause. *)
Definition match_run (idx_orig idx_dest : list idx_entry) (line : string)
    (times : run) : result (option trip) :=
  match os ← get_stops idx_orig times; py_max (orig_candidate <$> os) with
  | Raise (ValueError _) => Ok None
  | Raise e => Raise e
  | Ok orig_stop =>
      match ds ← get_stops idx_dest times; py_min (dest_candidate <$> ds) with
      | Raise (ValueError _) => Ok None
      | Raise e => Raise e
      | Ok dest_stop => Ok (Some (orig_stop, dest_stop, line))
      end
  end.

Definition add_run (idx_orig idx_dest : list idx_entry) (line : string)
    (times : run) (trips : gset trip) : result (gset trip) :=
  r ← match_run idx_orig idx_dest line times;
  Ok (match r with Some t => {[t]} ∪ trips | None => trips end).

(** The body of the loop over [linedata.items()]; the state is the pair
    [(home2office, office2home)], and [trip] aliases one of the two. *)
Definition do_route (home office : gmap string Z) (line : string)
    (item : string * route) (st : gset trip * gset trip)
    : result (gset trip * gset trip) :=
  let '(_, (stops, timetable)) := item in
  '(d, idx_orig, idx_dest) ← classify stops home office;
  match d with
  | Home2Office =>
      h ← py_for (add_run idx_orig idx_dest line) timetable st.1; Ok (h, st.2)
  | Office2Home =>
      o ← py_for (add_run idx_orig idx_dest line) timetable st.2; Ok (st.1, o)
  end.

Definition do_line (home office : gmap string Z) (item : string * linedata)
    (st : gset trip * gset trip) : result (gset trip * gset trip) :=
  py_for (do_route home office item.1) item.2 st.

(** [a <= b] in Python's order on trips, as [sorted] uses it. *)
Definition trip_le (a b : trip) : Prop := py_lt b a = false.

#[global] Instance trip_le_dec : RelDecision trip_le.
Proof. intros a b. unfold trip_le. apply _. Defined.

(** [sorted(s)] of a set of trips: the elements of the set in ascending
    order.  The order of iteration over a Python set is unspecified; the
    sorted list does not depend on it ([sorted_canonical] below). *)
Definition sorted (s : gset trip) : list trip :=
  merge_sort trip_le (elements s).

(** Lines 95-119: the two sorted trip lists. *)
Definition build_trips (linesdata : list (string * linedata))
    (home office : gmap string Z) : result (list trip * list trip) :=
  st ← py_for (do_line home office) linesdata (∅, ∅);
  Ok (sorted st.1, sorted st.2).

(** Rendering: [time_s] and [table]. *)

Definition digit (d : Z) : Ascii.ascii := Ascii.ascii_of_nat (48 + Z.to_nat d).

Definition two_digits (n : Z) : string :=
  String (digit (n `div` 10)) (String (digit (n `mod` 10)) "").

(** [time.strftime('%H:%M')] *)
Definition strftime_HM (time : Z) : string :=
  two_digits ((time `mod` 1440) `div` 60) +:+ ":" +:+ two_digits (time `mod` 60).

Definition time_s (time : Z) : string :=
  let res := strftime_HM time in
  if String.prefix "0" res then
    match res with String _ rest => rest | EmptyString => res end
  else res.

Definition table_row : Type :=
  string * string * string * string * string * string * string.

Definition headers : list string :=
  ["Trip"; ""; ""; "Board at"; "Line"; ""; "Descend at"].

Definition render_trip (t : trip) : table_row :=
  let '((leave, board, orig), (arrive, descend, dest), theline) := t in
  (time_s leave +:+ "-" +:+ time_s arrive,
   "(" +:+ pretty ((arrive - leave) `mod` 1440) +:+ "')",
   time_s board, orig, theline, time_s descend, dest).

Definition table (thetrip : list trip) : list string * list table_row :=
  (headers, render_trip <$> thetrip).

Definition build_table (linesdata : list (string * linedata))
    (home office : gmap string Z)
    : result ((list string * list table_row) * (list string * list table_row)) :=
  '(home2office, office2home) ← build_trips linesdata home office;
  Ok (table home2office, table office2home).

(** ** The run matrix builder: [parse_path] *)

(** What [parse_path] reads off one fetched page: the texts of the
    [td] cells whose id matches [STOP_REGEX], and, for each [tr] of class
    [row0] or [row1], the texts of its [td.horaire] cells.  The page has a
    [laterHour] link exactly when another page follows it. *)
Record page := Page {
  page_stops : list string;
  page_rows : list (list string)
}.

Definition digit_val (a : Ascii.ascii) : option Z :=
  let n := Z.of_nat (Ascii.nat_of_ascii a) in
  if bool_decide (48 ≤ n ≤ 57) then Some (n - 48) else None.

(** The [%H] directive: [2[0-3]|[0-1]\d|\d]. *)
Definition take_hour (l : list Ascii.ascii) : option (Z * list Ascii.ascii) :=
  match l with
  | [] => None
  | a :: l' =>
      x ← digit_val a;
      match l' with
      | b :: l'' =>
          match digit_val b with
          | Some y =>
              if bool_decide (x = 2 ∧ y ≤ 3 ∨ x ≤ 1)
              then Some (10 * x + y, l'') else Some (x, l')
          | None => Some (x, l')
          end
      | [] => Some (x, l')
      end
  end.

(** The [%M] directive: [[0-5]\d|\d]. *)
Definition take_minute (l : list Ascii.ascii) : option (Z * list Ascii.ascii) :=
  match l with
  | [] => None
  | a :: l' =>
      x ← digit_val a;
      match l' with
      | b :: l'' =>
          match digit_val b with
          | Some y =>
              if bool_decide (x ≤ 5) then Some (10 * x + y, l'') else Some (x, l')
          | None => Some (x, l')
          end
      | [] => Some (x, l')
      end
  end.

Definition colon : Ascii.ascii := Ascii.ascii_of_nat 58.

(** [datetime.datetime.strptime(timestring, '%H:%M')] on ASCII text, as
    minutes since 1900-01-01 00:00; [ValueError] when the text does not
    match the format or unconverted data remains. *)
Definition parse_time (timestring : string) : result Z :=
  let bad := Raise (ValueError "time data does not match format '%H:%M'") in
  match take_hour (String.list_ascii_of_string timestring) with
  | Some (h, c :: rest) =>
      if bool_decide (c = colon) then
        match take_minute rest with
        | Some (m, []) => Ok (60 * h + m)
        | _ => bad
        end
      else bad
  | _ => bad
  end.

(** [parse_time(td.text) if td.text != '|' else None] *)
Definition parse_cell (text : string) : result (option Z) :=
  if bool_decide (text = "|") then Ok None else Some <$> parse_time text.

(** The list comprehension over the cells of one row. *)
Fixpoint parse_row (cells : list string) : result (list (option Z)) :=
  match cells with
  | [] => Ok []
  | text :: rest => c ← parse_cell text; l ← parse_row rest; Ok (c :: l)
  end.

(** Lines 43-46: [zip(timetable, rows)] stops at the shorter of the two;
    the accumulators it does not reach are left as they are. *)
Fixpoint extend_rows (timetable : list (list (option Z)))
    (rows : list (list string)) : result (list (list (option Z))) :=
  match timetable, rows with
  | timerow :: timetable', row :: rows' =>
      data ← parse_row row;
      rest ← extend_rows timetable' rows';
      Ok ((timerow ++ data) :: rest)
  | _, _ => Ok timetable
  end.

(** The [while True] loop, once per fetched page. *)
Fixpoint fetch_loop (stops : list string) (timetable : list (list (option Z)))
    (rows : list (list string)) (later : list page)
    : result (list (list (option Z))) :=
  if bool_decide (length stops = length rows) then
    timetable' ← extend_rows timetable rows;
    match later with
    | [] => Ok timetable'
    | p :: later' => fetch_loop stops timetable' (page_rows p) later'
    end
  else Raise (AssertionError (length stops, length rows)).

(** [list(zip( *timetable))]: the tuples of the j-th items of all rows, for
    as long as every row has a j-th item; no tuple for no row at all. *)
Fixpoint zip_star {A} (timetable : list (list A)) : list (list A) :=
  match timetable with
  | [] => []
  | [row] => (λ x, [x]) <$> row
  | row :: rows => zip_with cons row (zip_star rows)
  end.

(** The accumulated per-stop rows at the end of the loop. *)
Definition accumulate (first : page) (later : list page)
    : result (list (list (option Z))) :=
  let rows := page_rows first in
  fetch_loop (page_stops first) (replicate (length rows) []) rows later.

Definition parse_path (first : page) (later : list page) : result route :=
  timetable ← accumulate first later;
  Ok (page_stops first, zip_star timetable).

(** ** The command line: [main] *)

(** The command line as [argparse] reads it: the three positionals and the
    two options, an option being [None] when it is not given. *)
Record cli := Cli {
  cli_date : string;
  cli_config : string;
  cli_lines : list string;
  cli_operator : option string;
  cli_format : option string
}.

Record args := Args {
  args_date : string;
  args_config : string;
  args_lines : list string;
  args_operator : string;
  args_format : option string
}.

Definition format_choices : list string := ["text"; "latex"].

(** [parser.parse_args]: [lines] has [nargs='+'], [--format] has [choices]
    and no default, [--operator] defaults to ['Envibus'].  A rejected
    command line exits with status 2; the check of [choices] applies to a
    value that is given. *)
Definition check_choice (value : option string) : bool :=
  match value with
  | Some f => bool_decide (f ∈ format_choices)
  | None => true
  end.

Definition parse_args (c : cli) : result args :=
  if bool_decide (cli_lines c = []) then Raise (SystemExit 2)
  else if check_choice (cli_format c)
  then Ok (Args (cli_date c) (cli_config c) (cli_lines c)
                (default "Envibus" (cli_operator c)) (cli_format c))
  else Raise (SystemExit 2).

(** What the program does to the outside world, in order. *)
Inductive event :=
  | EvLoadConfig (path : string)
  | EvParseLine (line date operator : string)
  | EvBuildTable
  | EvPrint (text : string).

(** Computations that leave a trace of events and may raise. *)
Record io (A : Type) := IO { run_io : list event * result A }.
Arguments IO {A} _.
Arguments run_io {A} _.

#[global] Instance io_ret : MRet io := λ A a, IO ([], Ok a).
#[global] Instance io_bind : MBind io := λ A B f m,
  match run_io m with
  | (tr, Ok a) => let '(tr', r) := run_io (f a) in IO (tr ++ tr', r)
  | (tr, Raise e) => IO (tr, Raise e)
  end.

Definition emit (ev : event) : io unit := IO ([ev], Ok ()).
Definition lift {A} (r : result A) : io A := IO ([], r).

Definition tables : Type :=
  (list string * list table_row) * (list string * list table_row).

Section main.
(** The collaborators of [main]: reading the configuration file, the
    scraper [parse_line], and the two [tabulate] renderers. *)
Variable load_config : string → result (gmap string (gmap string Z)).
Variable parse_line : string → string → string → result linedata.
Variable get_text get_latex : tables → string.

(** [FORMATTING_FUNCTIONS[key]]; the key [None] is in no dictionary of
    strings. *)
Definition FORMATTING_FUNCTIONS (key : option string)
    : result (tables → string) :=
  match key with
  | Some "text" => Ok get_text
  | Some "latex" => Ok get_latex
  | _ => Raise KeyError
  end.

Definition getitem (config : gmap string (gmap string Z)) (key : string)
    : result (gmap string Z) :=
  match config !! key with Some v => Ok v | None => Raise KeyError end.

(** The list comprehension of line 190. *)
Fixpoint fetch_lines (date operator : string) (lines : list string)
    : io (list (string * linedata)) :=
  match lines with
  | [] => mret []
  | line :: rest =>
      _ ← emit (EvParseLine line date operator);
      d ← lift (parse_line line date operator);
      l ← fetch_lines date operator rest;
      mret ((line, d) :: l)
  end.

Definition main (c : cli) : io unit :=
  a ← lift (parse_args c);
  _ ← emit (EvLoadConfig (args_config a));
  config ← lift (load_config (args_config a));
  linesdata ← fetch_lines (args_date a) (args_operator a) (args_lines a);
  home ← lift (getitem config "home");
  office ← lift (getitem config "office");
  _ ← emit EvBuildTable;
  tbls ← lift (build_table linesdata home office);
  f ← lift (FORMATTING_FUNCTIONS (args_format a));
  emit (EvPrint (f tbls)).
End main.

(** ** The specification's vocabulary *)

(** The stop indices usable for an anchor: those whose stop name is a key
    of the AnchorSet. *)
Definition usable_indices (stops : list string) (anchor : gmap string Z)
    : list nat :=
  filter (λ i, is_Some (stops !! i ≫= (anchor !!.))) (seq 0 (length stops)).

(** [(min, max)] of a list of indices; none for the empty list. *)
Definition index_range (l : list nat) : option (nat * nat) :=
  match l with
  | [] => None
  | i :: l' => Some (foldr Nat.min i l', foldr Nat.max i l')
  end.

(** The time of stop [i] in a run is present. *)
Definition present (stops : list string) (anchor : gmap string Z)
    (times : run) (i : nat) (time : Z) (stop : string) (delta : Z) : Prop :=
  stops !! i = Some stop ∧ anchor !! stop = Some delta ∧
  times !! i = Some (Some time).

(** The AnchorSet on the origin side and on the destination side. *)
Definition origin_of (d : direction) (home office : gmap string Z)
    : gmap string Z :=
  match d with Home2Office => home | Office2Home => office end.

Definition destination_of (d : direction) (home office : gmap string Z)
    : gmap string Z :=
  match d with Home2Office => office | Office2Home => home end.

(** The seven fields of a trip. *)
Definition leave_time (t : trip) : Z := t.1.1.1.1.
Definition board_time (t : trip) : Z := t.1.1.1.2.
Definition board_stop (t : trip) : string := t.1.1.2.
Definition arrive_time (t : trip) : Z := t.1.2.1.1.
Definition alight_time (t : trip) : Z := t.1.2.1.2.
Definition alight_stop (t : trip) : string := t.1.2.2.
Definition trip_line (t : trip) : string := t.2.

(** The set a direction accumulates into. *)
Definition trips_of (d : direction) (st : gset trip * gset trip) : gset trip :=
  match d with Home2Office => st.1 | Office2Home => st.2 end.

(** The list [build_trips] returns for a direction. *)
Definition output_of (d : direction) (out : list trip * list trip)
    : list trip :=
  match d with Home2Office => out.1 | Office2Home => out.2 end.

(** Trip [t] is emitted for direction [d] by a run of a route, by a route
    of a line, by a line of the input. *)
Definition route_emits (home office : gmap string Z) (line : string)
    (item : string * route) (d : direction) (t : trip) : Prop :=
  ∃ idx_orig idx_dest times,
    classify item.2.1 home office = Ok (d, idx_orig, idx_dest) ∧
    times ∈ item.2.2 ∧ match_run idx_orig idx_dest line times = Ok (Some t).

Definition line_emits (home office : gmap string Z)
    (item : string * linedata) (d : direction) (t : trip) : Prop :=
  ∃ r, r ∈ item.2 ∧ route_emits home office item.1 r d t.

Definition emits (linesdata : list (string * linedata))
    (home office : gmap string Z) (d : direction) (t : trip) : Prop :=
  ∃ l, l ∈ linesdata ∧ line_emits home office l d t.

(** The order of the specification: by leave-anchor time, board time and
    board stop, then by arrive-anchor time, alight time and alight stop,
    then by line. *)
Fixpoint lexicographic (l : list comparison) : comparison :=
  match l with
  | [] => Eq
  | Eq :: l' => lexicographic l'
  | c :: _ => c
  end.

Definition trip_compare (a b : trip) : comparison :=
  lexicographic
    [Z.compare (leave_time a) (leave_time b);
     Z.compare (board_time a) (board_time b);
     String.compare (board_stop a) (board_stop b);
     Z.compare (arrive_time a) (arrive_time b);
     Z.compare (alight_time a) (alight_time b);
     String.compare (alight_stop a) (alight_stop b);
     String.compare (trip_line a) (trip_line b)].

(** The six fields of a journey, the line left out. *)
Definition same_journey (a b : trip) : Prop :=
  leave_time a = leave_time b ∧ board_time a = board_time b ∧
  board_stop a = board_stop b ∧ arrive_time a = arrive_time b ∧
  alight_time a = alight_time b ∧ alight_stop a = alight_stop b.

#[global] Instance same_journey_dec : RelDecision same_journey.
Proof. intros a b. unfold same_journey. apply _. Defined.

(** The least of a list of lengths. *)
Fixpoint min_of (l : list nat) : nat :=
  match l with
  | [] => 0
  | [n] => n
  | n :: l' => Nat.min n (min_of l')
  end.

(** The number of time cells each per-stop row has received once all
    pages are read. *)
Definition accumulated_lengths (first : page) (later : list page) : list nat :=
  foldl (λ acc p, zip_with Nat.add acc (length <$> page_rows p))
        (replicate (length (page_rows first)) 0%nat) (first :: later).

(** Every page has one row per stop of the first page: the assertion of
    line 42 holds throughout. *)
Definition rows_match_stops (first : page) (later : list page) : Prop :=
  Forall (λ p, length (page_rows p) = length (page_stops first))
         (first :: later).

(** Every cell is the placeholder or a time [strptime] accepts. *)
Definition cells_well_formed (first : page) (later : list page) : Prop :=
  Forall (λ p, Forall (Forall (λ text, ∃ c, parse_cell text = Ok c))
                      (page_rows p))
         (first :: later).

(** The cell texts of each per-stop row, over all pages in the order they
    are read. *)
Definition joined_rows (first : page) (later : list page)
    : list (list string) :=
  foldl (λ acc p, zip_with app acc (page_rows p))
        (replicate (length (page_rows first)) []) (first :: later).

(** A page the loop accepts: one row per stop, every cell the placeholder
    or a time. *)
Definition page_ok (stops : list string) (p : page) : Prop :=
  length (page_rows p) = length stops ∧
  Forall (Forall (λ text, ∃ c, parse_cell text = Ok c)) (page_rows p).

(** The index component of the entries of [filter_idx]. *)
Definition entry_index (e : idx_entry) : nat := e.1.1.

(** A computation of the error monad returned. *)
Definition returns {A} (r : result A) : Prop :=
  match r with Ok _ => True | Raise _ => False end.

#[global] Instance result_eq_dec {A} `{EqDecision A} : EqDecision (result A).
Proof. solve_decision. Defined.

(** A route the matcher gets through: it is classified, and no run of it
    raises. *)
Definition route_accepted (home office : gmap string Z) (line : string)
    (item : string * route) : Prop :=
  ∃ d idx_orig idx_dest,
    classify item.2.1 home office = Ok (d, idx_orig, idx_dest) ∧
    ∀ times, times ∈ item.2.2 →
             returns (match_run idx_orig idx_dest line times).

(** Sample collaborators, for running [main] on concrete command lines. *)
Definition sample_linedata : linedata :=
  [("A > C", (["A"; "B"; "C"], [[Some 480; Some 490; Some 500]]))].

Definition sample_load_config (path : string)
    : result (gmap string (gmap string Z)) :=
  if bool_decide (path = "config.json")
  then Ok {["home" := {["A" := 5]}; "office" := {["C" := 3]}]}
  else if bool_decide (path = "home-only.json")
  then Ok {["home" := {["A" := 5]}]}
  else Raise (ValueError "Expecting value: line 1 column 1 (char 0)").

Definition sample_parse_line (line date operator : string) : result linedata :=
  if bool_decide (line = "1") then Ok sample_linedata else Raise IndexError.

Definition sample_get_text (t : tables) : string := "text".
Definition sample_get_latex (t : tables) : string := "latex".

Definition sample_main (c : cli) : list event * result unit :=
  run_io (main sample_load_config sample_parse_line sample_get_text
            sample_get_latex c).

(** * Properties *)

(** ** Properties of the comparison *)

Lemma string_compare_refl s : String.compare s s = Eq.
Proof.
  induction s as [|a s IH]; simpl; [done|].
  unfold Ascii.compare. by rewrite N.compare_refl.
Qed.

Lemma string_compare_lt_trans s1 s2 s3 :
  String.compare s1 s2 = Lt → String.compare s2 s3 = Lt →
  String.compare s1 s3 = Lt.
Proof.
  revert s2 s3. induction s1 as [|a1 s1 IH]; intros [|a2 s2] [|a3 s3];
    simpl; try done.
  destruct (Ascii.compare a1 a2) eqn:H12; try done.
  - apply Ascii.compare_eq_iff in H12 as ->.
    destruct (Ascii.compare a2 a3); eauto.
  - intros _. destruct (Ascii.compare a2 a3) eqn:H23; try done.
    + apply Ascii.compare_eq_iff in H23 as ->. by rewrite H12.
    + intros _. unfold Ascii.compare in *.
      rewrite N.compare_lt_iff in H12, H23.
      assert (N.compare (Ascii.N_of_ascii a1) (Ascii.N_of_ascii a3) = Lt)
        as ->; [|done].
      apply N.compare_lt_iff. lia.
Qed.

#[global] Instance Z_ord_laws : OrdLaws Z.
Proof.
  split; unfold cmp, Z_ord.
  - intros x y. apply Z.compare_eq_iff.
  - intros x y. apply Z.compare_antisym.
  - intros x y z. rewrite !Z.compare_lt_iff. lia.
Qed.

#[global] Instance nat_ord_laws : OrdLaws nat.
Proof.
  split; unfold cmp, nat_ord.
  - intros x y. apply Nat.compare_eq_iff.
  - intros x y. apply Nat.compare_antisym.
  - intros x y z. rewrite !Nat.compare_lt_iff. lia.
Qed.

#[global] Instance string_ord_laws : OrdLaws string.
Proof.
  split; unfold cmp, string_ord.
  - intros x y. split; [apply String.compare_eq_iff|].
    intros ->. apply string_compare_refl.
  - intros x y. apply String.compare_antisym.
  - apply string_compare_lt_trans.
Qed.

#[global] Instance prod_ord_laws {A B} `{OrdLaws A, OrdLaws B} :
  OrdLaws (A * B).
Proof.
  split; unfold cmp at 1, prod_ord.
  - intros [a b] [a' b']. unfold cmp_pair; simpl.
    destruct (cmp a a') eqn:Ha.
    + apply cmp_eq in Ha as ->. rewrite cmp_eq. naive_solver.
    + split; [done|]. intros [= -> _].
      assert (cmp a' a' = Eq) by by apply cmp_eq. congruence.
    + split; [done|]. intros [= -> _].
      assert (cmp a' a' = Eq) by by apply cmp_eq. congruence.
  - intros [a b] [a' b']. unfold cmp at 1, prod_ord, cmp_pair; simpl.
    rewrite (cmp_antisym a a'). destruct (cmp a a'); simpl; try done.
    apply cmp_antisym.
  - intros [a b] [a' b'] [a'' b'']. unfold cmp at 1 2, prod_ord, cmp_pair.
    simpl. destruct (cmp a a') eqn:Hc1; try done.
    + apply cmp_eq in Hc1 as ->. destruct (cmp a' a''); try done.
      apply cmp_lt_trans.
    + intros _. destruct (cmp a' a'') eqn:Hc2; try done.
      * apply cmp_eq in Hc2 as ->. by rewrite Hc1.
      * intros _. by rewrite (cmp_lt_trans _ _ _ Hc1 Hc2).
Qed.

Section ord.
Context {A : Type} `{OrdLaws A}.

Lemma cmp_refl (x : A) : cmp x x = Eq.
Proof. by apply cmp_eq. Qed.

Lemma py_lt_irrefl (x : A) : py_lt x x = false.
Proof. unfold py_lt. by rewrite cmp_refl. Qed.

Lemma py_lt_spec (x y : A) : py_lt x y = true ↔ cmp x y = Lt.
Proof. unfold py_lt. destruct (cmp x y); naive_solver. Qed.

Lemma py_lt_asym (x y : A) : py_lt x y = true → py_lt y x = false.
Proof.
  rewrite py_lt_spec. unfold py_lt. intros Hxy.
  by rewrite (cmp_antisym x y), Hxy.
Qed.

Lemma py_lt_trans (x y z : A) :
  py_lt x y = true → py_lt y z = true → py_lt x z = true.
Proof. rewrite !py_lt_spec. apply cmp_lt_trans. Qed.

Lemma py_lt_connex (x y : A) :
  py_lt x y = false → py_lt y x = false → x = y.
Proof.
  unfold py_lt. rewrite (cmp_antisym x y).
  destruct (cmp x y) eqn:Hc; try done. intros _ _. by apply cmp_eq.
Qed.

(** [not (y < x)] is a total order. *)
Lemma py_le_trans (x y z : A) :
  py_lt y x = false → py_lt z y = false → py_lt z x = false.
Proof.
  intros Hxy Hyz. destruct (py_lt z x) eqn:Hzx; [|done].
  destruct (py_lt x y) eqn:Hlt.
  - by rewrite (py_lt_trans z x y) in Hyz.
  - assert (x = y) as -> by by apply py_lt_connex. congruence.
Qed.

Lemma max_from_elem_of (best : A) l : max_from best l ∈ best :: l.
Proof.
  revert best. induction l as [|x l IH]; intros best; simpl.
  - apply list_elem_of_here.
  - pose proof (IH (if py_gt x best then x else best))
      as [Heq|Hin]%elem_of_cons.
    + rewrite Heq. destruct (py_gt x best); set_solver.
    + set_solver.
Qed.

Lemma max_from_ge_best (best : A) l : py_lt (max_from best l) best = false.
Proof.
  revert best. induction l as [|x l IH]; intros best; simpl.
  - apply py_lt_irrefl.
  - unfold py_gt. destruct (py_lt best x) eqn:Hlt; [|done].
    eapply py_le_trans; [|apply IH]. by apply py_lt_asym.
Qed.

Lemma max_from_upper (best : A) l x :
  x ∈ best :: l → py_lt (max_from best l) x = false.
Proof.
  revert best. induction l as [|y l IH]; intros best; simpl.
  - intros ->%list_elem_of_singleton. apply py_lt_irrefl.
  - intros Hx. apply elem_of_cons in Hx as [->|Hx];
      [|apply elem_of_cons in Hx as [->|Hx]].
    + unfold py_gt. destruct (py_lt best y) eqn:Hlt.
      * eapply py_le_trans; [|apply max_from_ge_best].
        by apply py_lt_asym.
      * apply max_from_ge_best.
    + unfold py_gt. destruct (py_lt best y) eqn:Hlt.
      * apply max_from_ge_best.
      * eapply py_le_trans; [apply Hlt|apply max_from_ge_best].
    + apply IH. set_solver.
Qed.

Lemma min_from_elem_of (best : A) l : min_from best l ∈ best :: l.
Proof.
  revert best. induction l as [|x l IH]; intros best; simpl.
  - apply list_elem_of_here.
  - pose proof (IH (if py_lt x best then x else best))
      as [Heq|Hin]%elem_of_cons.
    + rewrite Heq. destruct (py_lt x best); set_solver.
    + set_solver.
Qed.

Lemma min_from_le_best (best : A) l : py_lt best (min_from best l) = false.
Proof.
  revert best. induction l as [|x l IH]; intros best; simpl.
  - apply py_lt_irrefl.
  - destruct (py_lt x best) eqn:Hlt; [|done].
    eapply py_le_trans; [apply IH|]. by apply py_lt_asym.
Qed.

Lemma min_from_lower (best : A) l x :
  x ∈ best :: l → py_lt x (min_from best l) = false.
Proof.
  revert best. induction l as [|y l IH]; intros best; simpl.
  - intros ->%list_elem_of_singleton. apply py_lt_irrefl.
  - intros Hx. apply elem_of_cons in Hx as [->|Hx];
      [|apply elem_of_cons in Hx as [->|Hx]].
    + destruct (py_lt y best) eqn:Hlt.
      * eapply py_le_trans; [apply min_from_le_best|].
        by apply py_lt_asym.
      * apply min_from_le_best.
    + destruct (py_lt y best) eqn:Hlt.
      * apply min_from_le_best.
      * eapply py_le_trans; [apply min_from_le_best|apply Hlt].
    + apply IH. set_solver.
Qed.

Lemma py_max_spec (l : list A) :
  l ≠ [] →
  ∃ m, py_max l = Ok m ∧ m ∈ l ∧ ∀ x, x ∈ l → py_lt m x = false.
Proof.
  destruct l as [|b l]; [done|]. intros _. exists (max_from b l).
  split; [done|]. split; [apply max_from_elem_of|apply max_from_upper].
Qed.

Lemma py_min_spec (l : list A) :
  l ≠ [] →
  ∃ m, py_min l = Ok m ∧ m ∈ l ∧ ∀ x, x ∈ l → py_lt x m = false.
Proof.
  destruct l as [|b l]; [done|]. intros _. exists (min_from b l).
  split; [done|]. split; [apply min_from_elem_of|apply min_from_lower].
Qed.
End ord.

(** The end-to-end example of the specification. *)
Example build_table_example :
  build_table
    [("1", [("A > C", (["A"; "B"; "C"], [[Some 480; Some 490; Some 500]]))])]
    {["A" := 5]} {["C" := 3]}
  = Ok ((headers, [("7:55-8:23", "(28')", "8:00", "A", "1", "8:20", "C")]),
        (headers, [])).
Proof. vm_compute. reflexivity. Qed.

Example parse_path_example :
  parse_path (Page ["A"; "B"] [["8:00"; "|"]; ["08:10"; "9:10"]])
             [Page [] [["10:00"]; ["10:10"]]]
  = Ok (["A"; "B"],
        [[Some 480; Some 490]; [None; Some 550]; [Some 600; Some 610]]).
Proof. vm_compute. reflexivity. Qed.

(** ** Direction classification *)

(** Unfolds Python's comparison of tuples down to the comparisons of their
    components. *)
Ltac unfold_cmp :=
  cbv [py_lt py_gt cmp prod_ord cmp_pair Z_ord nat_ord string_ord fst snd].

Lemma py_lt_idx_lt (i i' : nat) (s s' : string) (d d' : Z) :
  (i < i')%nat → py_lt (i, s, d) (i', s', d') = true.
Proof.
  intros Hlt. unfold_cmp. by apply Nat.compare_lt_iff in Hlt as ->.
Qed.

Lemma py_lt_idx_gt (i i' : nat) (s s' : string) (d d' : Z) :
  (i' < i)%nat → py_lt (i, s, d) (i', s', d') = false.
Proof.
  intros Hlt. apply py_lt_asym. by apply py_lt_idx_lt.
Qed.

Lemma py_lt_idx_le (i i' : nat) (s s' : string) (d d' : Z) :
  py_lt (i, s, d) (i', s', d') = false → (i' ≤ i)%nat.
Proof.
  intros Hlt. destruct (decide (i < i')%nat) as [Hi|Hi]; [|lia].
  by rewrite py_lt_idx_lt in Hlt.
Qed.

Lemma elem_of_filter_idx_from k (stops : list string)
    (anchor : gmap string Z) i s d :
  (i, s, d) ∈ filter_idx_from k stops anchor ↔
  ∃ j, i = (k + j)%nat ∧ stops !! j = Some s ∧ anchor !! s = Some d.
Proof.
  revert k. induction stops as [|stop rest IH]; intros k; simpl.
  - split; [by intros ?%elem_of_nil|]. by intros (j & _ & ? & _).
  - assert ((i, s, d) ∈ filter_idx_from (S k) rest anchor ↔
            ∃ j, i = (k + S j)%nat ∧ rest !! j = Some s ∧ anchor !! s = Some d)
      as IH'.
    { rewrite IH. by setoid_rewrite Nat.add_succ_r. }
    destruct (anchor !! stop) as [delta|] eqn:Hstop.
    + rewrite elem_of_cons, IH'. split.
      * intros [[= -> -> ->]|(j & -> & Hj & Hd)].
        -- exists 0%nat. by rewrite Nat.add_0_r.
        -- by exists (S j).
      * intros ([|j] & -> & Hj & Hd); simplify_eq/=.
        -- left. by rewrite Nat.add_0_r.
        -- right. by exists j.
    + rewrite IH'. split.
      * intros (j & -> & Hj & Hd). by exists (S j).
      * intros ([|j] & -> & Hj & Hd); simplify_eq/=. by exists j.
Qed.

Lemma elem_of_filter_idx (stops : list string) (anchor : gmap string Z) i s d :
  (i, s, d) ∈ filter_idx stops anchor ↔
  stops !! i = Some s ∧ anchor !! s = Some d.
Proof.
  unfold filter_idx. rewrite elem_of_filter_idx_from. naive_solver.
Qed.

Lemma elem_of_usable_indices (stops : list string) (anchor : gmap string Z) i :
  i ∈ usable_indices stops anchor ↔
  ∃ s d, stops !! i = Some s ∧ anchor !! s = Some d.
Proof.
  unfold usable_indices. rewrite list_elem_of_filter, elem_of_seq. split.
  - intros [[d Hd] _]. destruct (stops !! i) as [s|] eqn:Hs; [|done].
    by exists s, d.
  - intros (s & d & Hs & Hd). split; [rewrite Hs; by exists d|].
    apply lookup_lt_Some in Hs. lia.
Qed.

Lemma index_range_spec (l : list nat) lo hi :
  index_range l = Some (lo, hi) →
  lo ∈ l ∧ hi ∈ l ∧ ∀ i, i ∈ l → (lo ≤ i ≤ hi)%nat.
Proof.
  destruct l as [|b l]; [done|]. simpl. intros [= <- <-].
  induction l as [|x l (IHlo & IHhi & IH)]; simpl.
  - split_and!; [set_solver..|]. intros i ->%list_elem_of_singleton. lia.
  - split_and!.
    + destruct (Nat.min_spec x (foldr Nat.min b l)) as [[_ ->]|[_ ->]];
        set_solver.
    + destruct (Nat.max_spec x (foldr Nat.max b l)) as [[_ ->]|[_ ->]];
        set_solver.
    + intros i Hi. assert (i = x ∨ i ∈ b :: l) as [->|Hi'] by set_solver.
      * lia.
      * specialize (IH i Hi'). lia.
Qed.

Lemma py_max_filter_idx (stops : list string) (anchor : gmap string Z) lo hi :
  index_range (usable_indices stops anchor) = Some (lo, hi) →
  ∃ s d, py_max (filter_idx stops anchor) = Ok (hi, s, d) ∧
         stops !! hi = Some s ∧ anchor !! s = Some d.
Proof.
  intros (_ & Hhi & Hall)%index_range_spec.
  apply elem_of_usable_indices in Hhi as (s & d & Hs & Hd).
  assert ((hi, s, d) ∈ filter_idx stops anchor) as Hin
    by by apply elem_of_filter_idx.
  destruct (py_max_spec (filter_idx stops anchor))
    as ([[i s'] d'] & Hmax & Hm & Hub).
  { intros Hnil. rewrite Hnil in Hin. by apply elem_of_nil in Hin. }
  apply Hub, py_lt_idx_le in Hin.
  apply elem_of_filter_idx in Hm as [Hs' Hd'].
  assert (i = hi) as ->.
  { assert (lo ≤ i ≤ hi)%nat; [|lia].
    apply Hall, elem_of_usable_indices. eauto. }
  simplify_eq. by exists s, d.
Qed.

Lemma py_min_filter_idx (stops : list string) (anchor : gmap string Z) lo hi :
  index_range (usable_indices stops anchor) = Some (lo, hi) →
  ∃ s d, py_min (filter_idx stops anchor) = Ok (lo, s, d) ∧
         stops !! lo = Some s ∧ anchor !! s = Some d.
Proof.
  intros (Hlo & _ & Hall)%index_range_spec.
  apply elem_of_usable_indices in Hlo as (s & d & Hs & Hd).
  assert ((lo, s, d) ∈ filter_idx stops anchor) as Hin
    by by apply elem_of_filter_idx.
  destruct (py_min_spec (filter_idx stops anchor))
    as ([[i s'] d'] & Hmin & Hm & Hlb).
  { intros Hnil. rewrite Hnil in Hin. by apply elem_of_nil in Hin. }
  apply Hlb, py_lt_idx_le in Hin.
  apply elem_of_filter_idx in Hm as [Hs' Hd'].
  assert (i = lo) as ->.
  { assert (lo ≤ i ≤ hi)%nat; [|lia].
    apply Hall, elem_of_usable_indices. eauto. }
  simplify_eq. by exists s, d.
Qed.

Lemma index_range_le (l : list nat) lo hi :
  index_range l = Some (lo, hi) → (lo ≤ hi)%nat.
Proof. intros (Hlo & _ & Hall)%index_range_spec. by apply Hall. Qed.

(** C3. Where the usable home indices and the usable office indices both
    exist and their ranges do not overlap, classification succeeds: with
    [maxHome < minOffice] the route is labelled home→office, with
    [maxOffice < minHome] office→home, and the origin-side and
    destination-side stops are those of the label.  [classify] is a
    function of the stop ordering and the two AnchorSets, so the same
    inputs give the same label. *)
Theorem classify_disjoint_ranges (stops : list string)
    (home office : gmap string Z) (minHome maxHome minOffice maxOffice : nat) :
  index_range (usable_indices stops home) = Some (minHome, maxHome) →
  index_range (usable_indices stops office) = Some (minOffice, maxOffice) →
  (maxHome < minOffice)%nat ∨ (maxOffice < minHome)%nat →
  ∃ d, classify stops home office
       = Ok (d, filter_idx stops (origin_of d home office),
                filter_idx stops (destination_of d home office)) ∧
       ((maxHome < minOffice)%nat → d = Home2Office) ∧
       ((maxOffice < minHome)%nat → d = Office2Home).
Proof.
  intros Hh Ho Hdisj.
  pose proof (index_range_le _ _ _ Hh). pose proof (index_range_le _ _ _ Ho).
  destruct (py_max_filter_idx _ _ _ _ Hh) as (s1 & d1 & Hmaxh & _).
  destruct (py_min_filter_idx _ _ _ _ Hh) as (s2 & d2 & Hminh & _).
  destruct (py_max_filter_idx _ _ _ _ Ho) as (s3 & d3 & Hmaxo & _).
  destruct (py_min_filter_idx _ _ _ _ Ho) as (s4 & d4 & Hmino & _).
  unfold classify. rewrite Hmaxh, Hmino; simpl.
  destruct Hdisj as [Hlt|Hlt].
  - exists Home2Office. rewrite py_lt_idx_lt by done.
    split_and!; [done..|lia].
  - exists Office2Home. rewrite py_lt_idx_gt by lia.
    rewrite Hmaxo, Hminh; simpl. rewrite py_lt_idx_lt by done.
    split_and!; [done|lia|done].
Qed.

Lemma classify_disjoint_ranges_witness :
  ∃ d, classify ["A"; "B"; "C"] {["A" := 5]} {["C" := 3]}
       = Ok (d, filter_idx ["A"; "B"; "C"] (origin_of d {["A" := 5]} {["C" := 3]}),
                filter_idx ["A"; "B"; "C"]
                  (destination_of d {["A" := 5]} {["C" := 3]})) ∧
       ((0 < 2)%nat → d = Home2Office) ∧ ((2 < 0)%nat → d = Office2Home).
Proof.
  apply (classify_disjoint_ranges ["A"; "B"; "C"] {["A" := 5]} {["C" := 3]}
           0%nat 0%nat 2%nat 2%nat).
  - vm_compute. reflexivity.
  - vm_compute. reflexivity.
  - left. lia.
Defined.

(** Where the two ranges overlap or interleave without sharing their
    boundary stop, the route is rejected with the explicit error. *)
Lemma classify_overlap_rejected (stops : list string)
    (home office : gmap string Z) (minHome maxHome minOffice maxOffice : nat) :
  index_range (usable_indices stops home) = Some (minHome, maxHome) →
  index_range (usable_indices stops office) = Some (minOffice, maxOffice) →
  (minOffice < maxHome)%nat → (minHome < maxOffice)%nat →
  classify stops home office = Raise (ValueError ambiguous_msg).
Proof.
  intros Hh Ho H1 H2.
  destruct (py_max_filter_idx _ _ _ _ Hh) as (s1 & d1 & Hmaxh & _).
  destruct (py_min_filter_idx _ _ _ _ Hh) as (s2 & d2 & Hminh & _).
  destruct (py_max_filter_idx _ _ _ _ Ho) as (s3 & d3 & Hmaxo & _).
  destruct (py_min_filter_idx _ _ _ _ Ho) as (s4 & d4 & Hmino & _).
  unfold classify. rewrite Hmaxh, Hmino; simpl.
  rewrite py_lt_idx_gt by done. rewrite Hmaxo, Hminh; simpl.
  by rewrite py_lt_idx_gt.
Qed.

(** C2 (the code departs from it). Stop "B" is usable from home and from
    the office, so the home range [0..1] and the office range [1..2]
    overlap: neither [maxHome < minOffice] nor [maxOffice < minHome].  The
    comparison of line 101 is between whole [(index, stop, delta)] tuples,
    and at equal index and stop it falls through to the walking times:
    3 minutes < 12 minutes labels the route home→office instead of raising
    the ambiguous-direction error. *)
Theorem classify_shared_stop_not_rejected :
  let stops := ["A"; "B"; "C"] in
  let home : gmap string Z := {["A" := 10; "B" := 3]} in
  let office : gmap string Z := {["B" := 12; "C" := 2]} in
  index_range (usable_indices stops home) = Some (0, 1)%nat ∧
  index_range (usable_indices stops office) = Some (1, 2)%nat ∧
  classify stops home office
  = Ok (Home2Office, [(0%nat, "A", 10); (1%nat, "B", 3)],
                     [(1%nat, "B", 12); (2%nat, "C", 2)]) ∧
  build_trips [("1", [("A > C", (stops, [[None; Some 480; None]]))])]
    home office
  = Ok ([((477, 480, "B"), (492, 480, "B"), "1")], []).
Proof. vm_compute. done. Qed.

(** ** Matching one run *)

Lemma py_for_app {A S} (body : A → S → result S) l1 l2 s :
  py_for body (l1 ++ l2) s = (s' ← py_for body l1 s; py_for body l2 s').
Proof.
  revert s. induction l1 as [|x l1 IH]; intros s; simpl; [done|].
  destruct (body x s) as [s'|e]; simpl; [apply IH|done].
Qed.

Lemma py_for_middle_ext {A S} (body : A → S → result S) l1 x x' l2 s :
  (∀ s', body x s' = body x' s') →
  py_for body (l1 ++ x :: l2) s = py_for body (l1 ++ x' :: l2) s.
Proof.
  intros Hx. rewrite !py_for_app.
  destruct (py_for body l1 s) as [s'|]; simpl; [|done]. by rewrite Hx.
Qed.

Lemma py_for_middle_skip {A S} (body : A → S → result S) l1 x l2 s :
  (∀ s', body x s' = Ok s') →
  py_for body (l1 ++ x :: l2) s = py_for body (l1 ++ l2) s.
Proof.
  intros Hx. rewrite !py_for_app.
  destruct (py_for body l1 s) as [s'|]; simpl; [|done]. by rewrite Hx.
Qed.

Lemma classify_inv stops home office d idx_orig idx_dest :
  classify stops home office = Ok (d, idx_orig, idx_dest) →
  idx_orig = filter_idx stops (origin_of d home office) ∧
  idx_dest = filter_idx stops (destination_of d home office).
Proof.
  unfold classify.
  destruct (py_max (filter_idx stops home)) as [mh|]; simpl; [|done].
  destruct (py_min (filter_idx stops office)) as [mo|]; simpl; [|done].
  destruct (py_lt mh mo); [by intros [= <- <- <-]|].
  destruct (py_max (filter_idx stops office)) as [mo'|]; simpl; [|done].
  destruct (py_min (filter_idx stops home)) as [mh'|]; simpl; [|done].
  destruct (py_lt mo' mh'); [by intros [= <- <- <-]|done].
Qed.

Lemma get_stops_spec (idxlist : list idx_entry) (times : run) :
  (∀ i s d, (i, s, d) ∈ idxlist → (i < length times)%nat) →
  ∃ l, get_stops idxlist times = Ok l ∧
       ∀ t s d, (t, s, d) ∈ l ↔
                ∃ i, (i, s, d) ∈ idxlist ∧ times !! i = Some (Some t).
Proof.
  induction idxlist as [|[[i s] d] rest IH]; intros Hlen; simpl.
  - exists []. split; [done|]. intros t s d. split.
    + by intros ?%elem_of_nil.
    + by intros (i & ?%elem_of_nil & _).
  - destruct IH as (l & Hl & Hspec).
    { intros i' s' d' Hin. eapply Hlen. by right. }
    destruct (times !! i) as [[time|]|] eqn:Hi.
    + rewrite Hl; simpl. exists ((time, s, d) :: l). split; [done|].
      intros t s' d'. rewrite elem_of_cons, Hspec. split.
      * intros [[= -> -> ->]|(i' & Hin & Ht)].
        -- exists i. split; [by left|done].
        -- exists i'. split; [by right|done].
      * intros (i' & [[= -> -> ->]|Hin]%elem_of_cons & Ht).
        -- left. congruence.
        -- right. eauto.
    + exists l. split; [done|]. intros t s' d'. rewrite Hspec. split.
      * intros (i' & Hin & Ht). exists i'. split; [by right|done].
      * intros (i' & [[= -> -> ->]|Hin]%elem_of_cons & Ht); [congruence|eauto].
    + apply lookup_ge_None in Hi.
      specialize (Hlen i s d (list_elem_of_here _ _)). lia.
Qed.

(** On a run aligned with the stops, [get_stops] yields exactly the
    present usable stops. *)
Lemma get_stops_filter_idx (stops : list string) (anchor : gmap string Z)
    (times : run) :
  length times = length stops →
  ∃ l, get_stops (filter_idx stops anchor) times = Ok l ∧
       ∀ t s d, (t, s, d) ∈ l ↔ ∃ i, present stops anchor times i t s d.
Proof.
  intros Hlen. destruct (get_stops_spec (filter_idx stops anchor) times)
    as (l & Hl & Hspec).
  { intros i s d [Hs _]%elem_of_filter_idx.
    apply lookup_lt_Some in Hs. lia. }
  exists l. split; [done|]. intros t s d. rewrite Hspec.
  unfold present. setoid_rewrite elem_of_filter_idx. naive_solver.
Qed.

Lemma py_lt_time_lt (a a' b b' : Z) (s s' : string) :
  py_lt (a, b, s) (a', b', s') = false → a' ≤ a.
Proof.
  unfold_cmp. destruct (Z.compare_spec a a'); [lia|done|lia].
Qed.

(** C1. On a classified route, for a run aligned with the stops in which
    some usable origin-side stop and some usable destination-side stop
    have a present time, the trip emitted for the run boards at a present
    usable origin stop whose [time - walkingBuffer] is the greatest among
    all of them (first or not), and alights at a present usable
    destination stop whose [time + walkingBuffer] is the least. *)
Theorem match_run_selects_best (stops : list string)
    (home office : gmap string Z) (d : direction)
    (idx_orig idx_dest : list idx_entry) (line : string) (times : run) :
  classify stops home office = Ok (d, idx_orig, idx_dest) →
  length times = length stops →
  (∃ i t s w, present stops (origin_of d home office) times i t s w) →
  (∃ i t s w, present stops (destination_of d home office) times i t s w) →
  ∃ ib tb sb wb ia ta sa wa,
    match_run idx_orig idx_dest line times
    = Ok (Some ((tb - wb, tb, sb), (ta + wa, ta, sa), line)) ∧
    present stops (origin_of d home office) times ib tb sb wb ∧
    (∀ i t s w, present stops (origin_of d home office) times i t s w →
                t - w ≤ tb - wb) ∧
    present stops (destination_of d home office) times ia ta sa wa ∧
    (∀ i t s w, present stops (destination_of d home office) times i t s w →
                ta + wa ≤ t + w).
Proof.
  intros [-> ->]%classify_inv Hlen (i1 & t1 & s1 & w1 & Ho)
    (i2 & t2 & s2 & w2 & Hd).
  destruct (get_stops_filter_idx stops (origin_of d home office) times Hlen)
    as (os & Hos & Hospec).
  destruct (get_stops_filter_idx stops (destination_of d home office) times
              Hlen) as (ds & Hds & Hdspec).
  destruct (py_max_spec (orig_candidate <$> os)) as (mo & Hmax & Hmo & Hub).
  { assert ((t1, s1, w1) ∈ os) as Hin by (apply Hospec; eauto).
    intros Hnil%fmap_nil_inv. rewrite Hnil in Hin. by apply elem_of_nil in Hin. }
  destruct (py_min_spec (dest_candidate <$> ds)) as (md & Hmin & Hmd & Hlb).
  { assert ((t2, s2, w2) ∈ ds) as Hin by (apply Hdspec; eauto).
    intros Hnil%fmap_nil_inv. rewrite Hnil in Hin. by apply elem_of_nil in Hin. }
  apply list_elem_of_fmap in Hmo as ([[tb sb] wb] & -> & Hb).
  apply list_elem_of_fmap in Hmd as ([[ta sa] wa] & -> & Ha).
  pose proof Hb as (ib & Hpb)%Hospec. pose proof Ha as (ia & Hpa)%Hdspec.
  exists ib, tb, sb, wb, ia, ta, sa, wa.
  unfold match_run. rewrite Hos, Hds; simpl. rewrite Hmax, Hmin; simpl.
  split_and!; [done|done| |done|].
  - intros i t s w Hp.
    assert (orig_candidate (t, s, w) ∈ orig_candidate <$> os) as Hin.
    { apply list_elem_of_fmap. exists (t, s, w). split; [done|].
      apply Hospec. eauto. }
    apply Hub in Hin. simpl in Hin. by apply py_lt_time_lt in Hin.
  - intros i t s w Hp.
    assert (dest_candidate (t, s, w) ∈ dest_candidate <$> ds) as Hin.
    { apply list_elem_of_fmap. exists (t, s, w). split; [done|].
      apply Hdspec. eauto. }
    apply Hlb in Hin. simpl in Hin. by apply py_lt_time_lt in Hin.
Qed.

Lemma match_run_selects_best_witness :
  let stops := ["A"; "B"; "C"] in
  let home : gmap string Z := {["A" := 10; "B" := 2]} in
  let office : gmap string Z := {["C" := 3]} in
  let times : run := [Some 480; Some 485; Some 500] in
  ∃ ib tb sb wb ia ta sa wa,
    match_run [(0%nat, "A", 10); (1%nat, "B", 2)] [(2%nat, "C", 3)] "1" times
    = Ok (Some ((tb - wb, tb, sb), (ta + wa, ta, sa), "1")) ∧
    present stops home times ib tb sb wb ∧
    (∀ i t s w, present stops home times i t s w → t - w ≤ tb - wb) ∧
    present stops office times ia ta sa wa ∧
    (∀ i t s w, present stops office times i t s w → ta + wa ≤ t + w).
Proof.
  intros stops home office times.
  apply (match_run_selects_best stops home office Home2Office).
  - vm_compute. reflexivity.
  - reflexivity.
  - exists 0%nat, 480, "A", 10. repeat split; vm_compute; reflexivity.
  - exists 2%nat, 500, "C", 3. repeat split; vm_compute; reflexivity.
Defined.

(** The later stop "B" wins over the first stop "A": leaving at 8:03 for
    the 8:05 at "B" beats leaving at 7:50 for the 8:00 at "A". *)
Example match_run_not_first :
  match_run [(0%nat, "A", 10); (1%nat, "B", 2)] [(2%nat, "C", 3)] "1"
    [Some 480; Some 485; Some 500]
  = Ok (Some ((483, 485, "B"), (503, 500, "C"), "1")).
Proof. vm_compute. reflexivity. Qed.

(** A run in which no usable origin-side stop, or no usable
    destination-side stop, has a present time yields no trip. *)
Lemma match_run_no_service (stops : list string) (home office : gmap string Z)
    (d : direction) (idx_orig idx_dest : list idx_entry) (line : string)
    (times : run) :
  classify stops home office = Ok (d, idx_orig, idx_dest) →
  length times = length stops →
  (∀ i t s w, ¬ present stops (origin_of d home office) times i t s w) ∨
  (∀ i t s w, ¬ present stops (destination_of d home office) times i t s w) →
  match_run idx_orig idx_dest line times = Ok None.
Proof.
  intros [-> ->]%classify_inv Hlen Hnone.
  destruct (get_stops_filter_idx stops (origin_of d home office) times Hlen)
    as (os & Hos & Hospec).
  destruct (get_stops_filter_idx stops (destination_of d home office) times
              Hlen) as (ds & Hds & Hdspec).
  unfold match_run. rewrite Hos, Hds; simpl.
  destruct os as [|[[t s] w] os]; [done|].
  destruct ds as [|[[t' s'] w'] ds]; [by destruct Hnone|].
  destruct Hnone as [Hnone|Hnone]; exfalso.
  - destruct (proj1 (Hospec t s w)) as [i Hp]; [by left|].
    by apply (Hnone i t s w).
  - destruct (proj1 (Hdspec t' s' w')) as [i Hp]; [by left|].
    by apply (Hnone i t' s' w').
Qed.

(** C6. On a classified route, a run aligned with the stops in which no
    usable origin-side stop, or no usable destination-side stop, has a
    present time raises nothing and emits no trip, and the matcher goes on
    with the remaining runs, routes and lines: the result of [build_trips]
    is the one it has without that run. *)
Theorem run_without_service_skipped (stops : list string)
    (home office : gmap string Z) (d : direction)
    (idx_orig idx_dest : list idx_entry) (times : run)
    (line direction_label : string) (before after : list run)
    (routes_before routes_after : linedata)
    (lines_before lines_after : list (string * linedata)) :
  classify stops home office = Ok (d, idx_orig, idx_dest) →
  length times = length stops →
  (∀ i t s w, ¬ present stops (origin_of d home office) times i t s w) ∨
  (∀ i t s w, ¬ present stops (destination_of d home office) times i t s w) →
  match_run idx_orig idx_dest line times = Ok None ∧
  build_trips
    (lines_before ++
     (line, routes_before ++
            (direction_label, (stops, before ++ times :: after)) ::
            routes_after) :: lines_after) home office
  = build_trips
      (lines_before ++
       (line, routes_before ++
              (direction_label, (stops, before ++ after)) :: routes_after)
       :: lines_after) home office.
Proof.
  intros Hc Hlen Hnone.
  pose proof (match_run_no_service _ _ _ _ _ _ line _ Hc Hlen Hnone) as Hrun.
  split; [done|].
  unfold build_trips. f_equal.
  apply py_for_middle_ext. intros st. unfold do_line; simpl.
  apply py_for_middle_ext. intros st'. unfold do_route. rewrite Hc; simpl.
  assert (∀ trips, py_for (add_run idx_orig idx_dest line)
                     (before ++ times :: after) trips
                   = py_for (add_run idx_orig idx_dest line)
                       (before ++ after) trips) as Hruns.
  { intros trips. apply py_for_middle_skip. intros trips'.
    unfold add_run. by rewrite Hrun. }
  destruct d; by rewrite Hruns.
Qed.

Lemma run_without_service_skipped_witness :
  let stops := ["A"; "B"; "C"] in
  let home : gmap string Z := {["A" := 5]} in
  let office : gmap string Z := {["C" := 3]} in
  match_run [(0%nat, "A", 5)] [(2%nat, "C", 3)] "1" [None; Some 490; Some 500]
  = Ok None ∧
  build_trips
    ([] ++ ("1", [] ++ ("A > C", (stops, [[Some 480; None; Some 500]] ++
                                          [None; Some 490; Some 500] :: []))
                 :: []) :: []) home office
  = build_trips
      ([] ++ ("1", [] ++ ("A > C", (stops, [[Some 480; None; Some 500]] ++ []))
                   :: []) :: []) home office.
Proof.
  intros stops home office.
  apply (run_without_service_skipped stops home office Home2Office).
  - vm_compute. reflexivity.
  - reflexivity.
  - left. intros i t s w (Hs & Hw & Ht).
    destruct i as [|[|[|i]]]; simplify_eq/=; vm_compute in Hw; done.
Defined.

(** ** The trips of the whole input *)

Lemma py_for_collect {A S T} (body : A → S → result S) (mem : T → S → Prop)
    (E : A → T → Prop) :
  (∀ x s s', body x s = Ok s' → ∀ t, mem t s' ↔ mem t s ∨ E x t) →
  ∀ l s s', py_for body l s = Ok s' →
            ∀ t, mem t s' ↔ mem t s ∨ ∃ x, x ∈ l ∧ E x t.
Proof.
  intros Hbody l. induction l as [|x l IH]; intros s s'; simpl.
  - intros [= ->] t. split; [by left|].
    intros [?|(x & ?%elem_of_nil & _)]; done.
  - destruct (body x s) as [s1|] eqn:Hx; simpl; [|done].
    intros Hl t. rewrite (IH _ _ Hl), (Hbody _ _ _ Hx). split.
    + intros [[?|?]|(y & ? & ?)]; [by left|right..].
      * exists x. split; [by left|done].
      * exists y. split; [by right|done].
    + intros [?|(y & [->|?]%elem_of_cons & ?)]; [by left; left|by left; right|].
      right. by exists y.
Qed.

Lemma add_runs_collect idx_orig idx_dest line timetable trips trips' :
  py_for (add_run idx_orig idx_dest line) timetable trips = Ok trips' →
  ∀ t, t ∈ trips' ↔
       t ∈ trips ∨
       ∃ times, times ∈ timetable ∧
                match_run idx_orig idx_dest line times = Ok (Some t).
Proof.
  apply (py_for_collect _ (λ t (s : gset trip), t ∈ s)
           (λ times t, match_run idx_orig idx_dest line times = Ok (Some t))).
  intros times s s'. unfold add_run.
  destruct (match_run _ _ _ times) as [[t'|]|]; simpl; [| |done].
  - intros [= <-] t. set_solver.
  - intros [= <-] t. naive_solver.
Qed.

Lemma do_route_collect home office line item d st st' :
  do_route home office line item st = Ok st' →
  ∀ t, t ∈ trips_of d st' ↔
       t ∈ trips_of d st ∨ route_emits home office line item d t.
Proof.
  destruct item as [label [stops timetable]].
  unfold do_route, route_emits; simpl.
  destruct (classify stops home office) as [[[d' io] id]|] eqn:Hc;
    simpl; [|done].
  assert (∀ t, (∃ idx_orig idx_dest times,
                  Ok (d', io, id) = Ok (d, idx_orig, idx_dest) ∧
                  times ∈ timetable ∧
                  match_run idx_orig idx_dest line times = Ok (Some t)) ↔
               d' = d ∧ ∃ times, times ∈ timetable ∧
                                 match_run io id line times = Ok (Some t))
    as Hex by naive_solver.
  destruct d'.
  - destruct (py_for _ timetable st.1) as [h|] eqn:Hruns; simpl; [|done].
    intros [= <-] t. rewrite Hex.
    pose proof (add_runs_collect _ _ _ _ _ _ Hruns t).
    destruct d; simpl; naive_solver.
  - destruct (py_for _ timetable st.2) as [o|] eqn:Hruns; simpl; [|done].
    intros [= <-] t. rewrite Hex.
    pose proof (add_runs_collect _ _ _ _ _ _ Hruns t).
    destruct d; simpl; naive_solver.
Qed.

Lemma do_line_collect home office item d st st' :
  do_line home office item st = Ok st' →
  ∀ t, t ∈ trips_of d st' ↔
       t ∈ trips_of d st ∨ line_emits home office item d t.
Proof.
  unfold do_line, line_emits.
  apply (py_for_collect _ (λ t s, t ∈ trips_of d s)
           (λ r t, route_emits home office item.1 r d t)).
  intros r s s'. apply do_route_collect.
Qed.

Lemma py_for_do_line_collect linesdata home office d st :
  py_for (do_line home office) linesdata (∅, ∅) = Ok st →
  ∀ t, t ∈ trips_of d st ↔ emits linesdata home office d t.
Proof.
  intros Hst t.
  rewrite (py_for_collect _ (λ t s, t ∈ trips_of d s)
             (λ l t, line_emits home office l d t)
             (λ l s s', do_line_collect home office l d s s') _ _ _ Hst).
  unfold emits. destruct d; set_solver.
Qed.

(** ** Sorting and deduplication *)

#[global] Instance trip_le_total : Total trip_le.
Proof.
  intros a b. unfold trip_le. destruct (py_lt b a) eqn:Hba; [|by left].
  right. by apply py_lt_asym.
Qed.

#[global] Instance trip_le_trans : Transitive trip_le.
Proof. intros a b c. unfold trip_le. apply py_le_trans. Qed.

#[global] Instance trip_le_antisymm : AntiSymm (=) trip_le.
Proof. intros a b Hab Hba. by apply py_lt_connex. Qed.

(** Python's comparison of the nested trip tuples is the order of the
    specification on the seven fields. *)
Lemma cmp_trip_compare (a b : trip) : cmp a b = trip_compare a b.
Proof.
  destruct a as [[[[l1 b1] s1] [[a1 d1] e1]] n1].
  destruct b as [[[[l2 b2] s2] [[a2 d2] e2]] n2].
  unfold trip_compare, leave_time, board_time, board_stop, arrive_time,
    alight_time, alight_stop, trip_line; simpl.
  unfold_cmp.
  destruct (l1 ?= l2); [|done..].
  destruct (b1 ?= b2); [|done..].
  destruct (String.compare s1 s2); [|done..].
  destruct (a1 ?= a2); [|done..].
  destruct (d1 ?= d2); [|done..].
  destruct (String.compare e1 e2); [|done..].
  by destruct (String.compare n1 n2).
Qed.

Lemma trip_le_compare (a b : trip) : trip_le a b ↔ trip_compare a b ≠ Gt.
Proof.
  unfold trip_le, py_lt. rewrite (cmp_antisym a b), cmp_trip_compare.
  destruct (trip_compare a b); naive_solver.
Qed.

Lemma trip_compare_leave (a b : trip) :
  trip_compare a b ≠ Gt → leave_time a ≤ leave_time b.
Proof.
  unfold trip_compare; simpl.
  destruct (Z.compare_spec (leave_time a) (leave_time b)); [lia|lia|done].
Qed.

Lemma Sorted_consecutive {A} (R : relation A) (l : list A) i a b :
  Sorted R l → l !! i = Some a → l !! S i = Some b → R a b.
Proof.
  intros Hs. revert i. induction Hs as [|x l Hs IH Hhd]; intros i; [done|].
  destruct i as [|i]; simpl.
  - intros [= ->] Hb. destruct Hhd as [|y l' Hxy]; [done|].
    simpl in Hb. congruence.
  - apply IH.
Qed.

Lemma sorted_spec (s : gset trip) :
  StronglySorted trip_le (sorted s) ∧ NoDup (sorted s) ∧
  ∀ t, t ∈ sorted s ↔ t ∈ s.
Proof.
  unfold sorted. split_and!.
  - apply StronglySorted_merge_sort; apply _.
  - rewrite merge_sort_Permutation. apply NoDup_elements.
  - intros t. rewrite merge_sort_Permutation. apply elem_of_elements.
Qed.

(** Whatever the order in which the set is iterated, sorting gives the
    same list. *)
Lemma sorted_canonical (s : gset trip) (l : list trip) :
  l ≡ₚ elements s → merge_sort trip_le l = sorted s.
Proof.
  intros Hperm. apply (StronglySorted_unique trip_le).
  - apply StronglySorted_merge_sort; apply _.
  - apply StronglySorted_merge_sort; apply _.
  - unfold sorted. by rewrite !merge_sort_Permutation.
Qed.

Lemma build_trips_inv linesdata home office out :
  build_trips linesdata home office = Ok out →
  ∃ st, py_for (do_line home office) linesdata (∅, ∅) = Ok st ∧
        ∀ d, output_of d out = sorted (trips_of d st).
Proof.
  unfold build_trips.
  destruct (py_for _ linesdata _) as [st|]; simpl; [|done].
  intros [= <-]. exists st. split; [done|]. by intros [].
Qed.

(** The output of a direction holds exactly the trips emitted for it. *)
Lemma build_trips_elem_of linesdata home office out d t :
  build_trips linesdata home office = Ok out →
  t ∈ output_of d out ↔ emits linesdata home office d t.
Proof.
  intros (st & Hst & Hout)%build_trips_inv. rewrite Hout.
  destruct (sorted_spec (trips_of d st)) as (_ & _ & ->).
  by apply py_for_do_line_collect.
Qed.

(** C4. Each of the two lists the matcher produces is in ascending order
    of (leave-anchor time, board time, board stop), then (arrive-anchor
    time, alight time, alight stop), then line: no trip is followed,
    anywhere later in the list, by one that compares smaller; and of two
    consecutive trips the first leaves the anchor no later than the
    second. *)
Theorem build_trips_sorted (linesdata : list (string * linedata))
    (home office : gmap string Z) (out : list trip * list trip)
    (d : direction) :
  build_trips linesdata home office = Ok out →
  StronglySorted (λ a b, trip_compare a b ≠ Gt) (output_of d out) ∧
  ∀ i a b, output_of d out !! i = Some a → output_of d out !! S i = Some b →
           leave_time a ≤ leave_time b.
Proof.
  intros (st & _ & Hout)%build_trips_inv. rewrite Hout.
  destruct (sorted_spec (trips_of d st)) as (Hsorted & _ & _).
  assert (StronglySorted (λ a b, trip_compare a b ≠ Gt)
            (sorted (trips_of d st))) as Hs.
  { induction Hsorted as [|x l Hl IH Hx]; constructor; [done|].
    eapply Forall_impl; [exact Hx|]. intros y. apply trip_le_compare. }
  split; [done|]. intros i a b Ha Hb.
  apply trip_compare_leave.
  apply (Sorted_consecutive (λ a b, trip_compare a b ≠ Gt)
           (sorted (trips_of d st)) i a b); [|done..].
  by apply StronglySorted_Sorted.
Qed.

Lemma build_trips_sorted_witness :
  let out := ([((475, 480, "A"), (503, 500, "C"), "1");
               ((535, 540, "A"), (563, 560, "C"), "1")], []) in
  StronglySorted (λ a b, trip_compare a b ≠ Gt) (output_of Home2Office out) ∧
  ∀ i a b, output_of Home2Office out !! i = Some a →
           output_of Home2Office out !! S i = Some b →
           leave_time a ≤ leave_time b.
Proof.
  apply (build_trips_sorted
           [("1", [("A > C", (["A"; "B"; "C"],
                              [[Some 540; Some 550; Some 560];
                               [Some 480; Some 490; Some 500]]))])]
           {["A" := 5]} {["C" := 3]}).
  vm_compute. reflexivity.
Defined.

(** C5 as stated fails: the line is a field of the trip tuple, so the
    same journey found on two lines stays two trips. *)
Lemma distinct_lines_not_collapsed :
  let r : linedata :=
    [("A > C", (["A"; "B"; "C"], [[Some 480; Some 490; Some 500]]))] in
  let t1 : trip := ((475, 480, "A"), (503, 500, "C"), "1") in
  let t2 : trip := ((475, 480, "A"), (503, 500, "C"), "2") in
  build_trips [("1", r); ("2", r)] {["A" := 5]} {["C" := 3]}
  = Ok ([t1; t2], []) ∧
  same_journey t1 t2 ∧ t1 ≠ t2.
Proof. split; [vm_compute; reflexivity|]. split; [by vm_compute|done]. Qed.

Lemma filter_eq_not_elem_of {A} `{EqDecision A} (l : list A) (x : A) :
  x ∉ l → filter (x =.) l = [].
Proof.
  induction l as [|y l IH]; [done|]. intros Hx.
  rewrite filter_cons_False; [|intros ->; apply Hx; by left].
  apply IH. intros Hin. apply Hx. by right.
Qed.

Lemma NoDup_filter_length_1 {A} `{EqDecision A} (l : list A) (x : A) :
  NoDup l → x ∈ l → length (filter (x =.) l) = 1%nat.
Proof.
  induction 1 as [|y l Hy Hnd IH]; [by intros ?%elem_of_nil|].
  intros [->|Hx]%elem_of_cons.
  - rewrite filter_cons_True by done. by rewrite filter_eq_not_elem_of.
  - rewrite filter_cons_False; [by apply IH|]. intros ->. done.
Qed.

(** C5, amended. Two runs, of whatever lines and routes of the input,
    that yield trips equal in all seven fields, the line identifier
    included, leave exactly one trip in the output of their direction. *)
Theorem build_trips_dedup (linesdata : list (string * linedata))
    (home office : gmap string Z) (out : list trip * list trip)
    (d : direction) (t1 t2 : trip) :
  build_trips linesdata home office = Ok out →
  emits linesdata home office d t1 →
  emits linesdata home office d t2 →
  same_journey t1 t2 → trip_line t1 = trip_line t2 →
  t1 = t2 ∧ length (filter (t1 =.) (output_of d out)) = 1%nat ∧
  NoDup (output_of d out).
Proof.
  intros Hb Ht1 Ht2 (H1 & H2 & H3 & H4 & H5 & H6) H7.
  assert (t1 = t2) as <-.
  { destruct t1 as [[[[? ?] ?] [[? ?] ?]] ?], t2 as [[[[? ?] ?] [[? ?] ?]] ?].
    unfold leave_time, board_time, board_stop, arrive_time, alight_time,
      alight_stop, trip_line in *; simpl in *. congruence. }
  apply (build_trips_elem_of _ _ _ _ _ _ Hb) in Ht1.
  destruct (build_trips_inv _ _ _ _ Hb) as (st & _ & Hout).
  assert (NoDup (output_of d out)) as Hnd.
  { rewrite Hout. apply sorted_spec. }
  split; [done|]. split; [|done]. by apply NoDup_filter_length_1.
Qed.

Lemma build_trips_dedup_witness :
  let t : trip := ((475, 480, "A"), (503, 500, "C"), "1") in
  let out : list trip * list trip := ([t], []) in
  t = t ∧ length (filter (t =.) (output_of Home2Office out)) = 1%nat ∧
  NoDup (output_of Home2Office out).
Proof.
  intros t out.
  pose (r1 := ("A > C", (["A"; "B"; "C"], [[Some 480; Some 490; Some 500]]))
        : string * route).
  pose (r2 := ("A > C direct", (["A"; "C"], [[Some 480; Some 500]]))
        : string * route).
  apply (build_trips_dedup [("1", [r1; r2])] {["A" := 5]} {["C" := 3]}
           out Home2Office t t).
  - vm_compute. reflexivity.
  - exists ("1", [r1; r2]). split; [by left|].
    exists r1. split; [by left|].
    exists [(0%nat, "A", 5)], [(2%nat, "C", 3)], [Some 480; Some 490; Some 500].
    split; [vm_compute; reflexivity|]. split; [by left|].
    vm_compute. reflexivity.
  - exists ("1", [r1; r2]). split; [by left|].
    exists r2. split; [right; by left|].
    exists [(0%nat, "A", 5)], [(1%nat, "C", 3)], [Some 480; Some 500].
    split; [vm_compute; reflexivity|]. split; [by left|].
    vm_compute. reflexivity.
  - repeat split.
  - reflexivity.
Defined.

(** C9. The end-to-end example: one trip home→office, leaving home at
    7:55, boarding at "A" at 8:00, alighting at "C" at 8:20 and arriving at
    the office at 8:23; no trip office→home. *)
Theorem end_to_end_example :
  let linesdata :=
    [("1", [("A > C", (["A"; "B"; "C"], [[Some 480; Some 490; Some 500]]))])] in
  let home : gmap string Z := {["A" := 5]} in
  let office : gmap string Z := {["C" := 3]} in
  parse_path (Page ["A"; "B"; "C"] [["8:00"]; ["8:10"]; ["8:20"]]) []
  = Ok (["A"; "B"; "C"], [[Some 480; Some 490; Some 500]]) ∧
  build_trips linesdata home office
  = Ok ([((7 * 60 + 55, 8 * 60, "A"), (8 * 60 + 23, 8 * 60 + 20, "C"), "1")],
        []) ∧
  build_table linesdata home office
  = Ok ((headers, [("7:55-8:23", "(28')", "8:00", "A", "1", "8:20", "C")]),
        (headers, [])).
Proof. repeat split; vm_compute; reflexivity. Qed.

(** ** The run matrix builder *)

Lemma parse_row_ok (cells : list string) :
  Forall (λ text, ∃ c, parse_cell text = Ok c) cells →
  ∃ data, parse_row cells = Ok data.
Proof.
  induction 1 as [|text cells [c Hc] _ [data IH]]; simpl; [by eexists|].
  rewrite Hc, IH; simpl. by eexists.
Qed.

Lemma parse_row_length (cells : list string) data :
  parse_row cells = Ok data → length data = length cells.
Proof.
  revert data. induction cells as [|text cells IH]; intros data; simpl.
  - by intros [= <-].
  - destruct (parse_cell text); simpl; [|done].
    destruct (parse_row cells) as [l|]; simpl; [|done].
    intros [= <-]. simpl. f_equal. by apply IH.
Qed.

Lemma extend_rows_ok timetable (rows : list (list string)) :
  Forall (Forall (λ text, ∃ c, parse_cell text = Ok c)) rows →
  ∃ timetable', extend_rows timetable rows = Ok timetable'.
Proof.
  intros Hrows. revert timetable.
  induction Hrows as [|row rows Hrow _ IH]; intros [|timerow timetable];
    simpl; try by eexists.
  destruct (parse_row_ok _ Hrow) as [data ->]; simpl.
  destruct (IH timetable) as [rest ->]; simpl. by eexists.
Qed.

Lemma extend_rows_lengths timetable (rows : list (list string)) timetable' :
  length timetable = length rows →
  extend_rows timetable rows = Ok timetable' →
  length <$> timetable'
  = zip_with Nat.add (length <$> timetable) (length <$> rows).
Proof.
  revert rows timetable'.
  induction timetable as [|timerow timetable IH];
    intros [|row rows] timetable'; simpl; try done.
  - by intros _ [= <-].
  - intros [= Hlen].
    destruct (parse_row row) as [data|] eqn:Hdata; simpl; [|done].
    destruct (extend_rows timetable rows) as [rest|] eqn:Hrest; simpl; [|done].
    intros [= <-]. simpl.
    rewrite length_app, (parse_row_length _ _ Hdata). f_equal. by apply IH.
Qed.

Lemma fetch_loop_ok stops timetable (rows : list (list string)) later :
  Forall (λ p, length (page_rows p) = length stops) (Page [] rows :: later) →
  Forall (λ p, Forall (Forall (λ text, ∃ c, parse_cell text = Ok c))
                      (page_rows p)) (Page [] rows :: later) →
  ∃ timetable', fetch_loop stops timetable rows later = Ok timetable'.
Proof.
  revert timetable rows. induction later as [|p later IH];
    intros timetable rows Hlen Hcells.
  - apply Forall_cons in Hlen as [Hlen _].
    apply Forall_cons in Hcells as [Hcells _]. simpl in *.
    rewrite bool_decide_eq_true_2 by done.
    destruct (extend_rows_ok timetable rows Hcells) as [tt ->]. by eexists.
  - apply Forall_cons in Hlen as [Hlen Hlater].
    apply Forall_cons in Hcells as [Hcells Hclater]. simpl in *.
    rewrite bool_decide_eq_true_2 by done.
    destruct (extend_rows_ok timetable rows Hcells) as [tt ->]; simpl.
    apply IH.
    + apply Forall_cons in Hlater as [? ?]. by constructor.
    + apply Forall_cons in Hclater as [? ?]. by constructor.
Qed.

Lemma fetch_loop_lengths stops timetable (rows : list (list string)) later
    timetable' :
  length timetable = length stops →
  fetch_loop stops timetable rows later = Ok timetable' →
  length timetable' = length stops ∧
  length <$> timetable'
  = foldl (λ acc p, zip_with Nat.add acc (length <$> page_rows p))
          (length <$> timetable) (Page [] rows :: later).
Proof.
  revert timetable rows. induction later as [|p later IH];
    intros timetable rows Htt; simpl.
  - case_bool_decide as Hrows; [|done].
    destruct (extend_rows timetable rows) as [tt|] eqn:Hext; simpl; [|done].
    intros [= <-].
    pose proof (extend_rows_lengths _ _ _ (eq_trans Htt Hrows) Hext) as Hl.
    split; [|done].
    apply (f_equal length) in Hl.
    rewrite length_zip_with, !length_fmap in Hl. lia.
  - case_bool_decide as Hrows; [|done].
    destruct (extend_rows timetable rows) as [tt|] eqn:Hext; simpl; [|done].
    pose proof (extend_rows_lengths _ _ _ (eq_trans Htt Hrows) Hext) as Hl.
    intros Hloop. apply IH in Hloop as [Hlen Hloop].
    + split; [done|]. rewrite Hloop. simpl. by rewrite Hl.
    + apply (f_equal length) in Hl.
      rewrite length_zip_with, !length_fmap in Hl. lia.
Qed.

Lemma accumulate_lengths first later timetable :
  accumulate first later = Ok timetable →
  length timetable = length (page_stops first) ∧
  length <$> timetable = accumulated_lengths first later.
Proof.
  unfold accumulate, accumulated_lengths. intros Hacc.
  assert (length (page_stops first) = length (page_rows first)) as Hfirst.
  { destruct later; simpl in Hacc; by case_bool_decide. }
  apply fetch_loop_lengths in Hacc as [Hlen Hacc];
    [|by rewrite length_replicate].
  split; [done|]. rewrite Hacc. simpl. f_equal.
  by rewrite fmap_replicate.
Qed.

Lemma zip_star_lookup {A} (timetable : list (list A)) j run :
  zip_star timetable !! j = Some run →
  Forall2 (λ row x, row !! j = Some x) timetable run.
Proof.
  revert run. induction timetable as [|row timetable IH]; intros run; [done|].
  destruct timetable as [|row' timetable].
  - simpl. rewrite list_lookup_fmap.
    destruct (row !! j) as [x|] eqn:Hx; simpl; [|done].
    intros [= <-]. by repeat constructor.
  - change (zip_star (row :: row' :: timetable))
      with (zip_with cons row (zip_star (row' :: timetable))).
    rewrite lookup_zip_with_Some. intros (x & y & -> & Hx & Hy).
    constructor; [done|]. by apply IH.
Qed.

Lemma zip_star_length {A} (timetable : list (list A)) :
  length (zip_star timetable) = min_of (length <$> timetable).
Proof.
  induction timetable as [|row timetable IH]; [done|].
  destruct timetable as [|row' timetable].
  - simpl. by rewrite length_fmap.
  - change (zip_star (row :: row' :: timetable))
      with (zip_with cons row (zip_star (row' :: timetable))).
    rewrite length_zip_with, IH. done.
Qed.

Lemma zip_star_run_length {A} (timetable : list (list A)) run :
  run ∈ zip_star timetable → length run = length timetable.
Proof.
  intros (j & Hj)%list_elem_of_lookup.
  apply zip_star_lookup, Forall2_length in Hj. done.
Qed.

(** C7. Whatever pages the builder is given, in the route+direction it
    constructs every run has as many entries as there are stop names, and
    entry [i] of run [j] is the [j]-th time accumulated for stop [i]. *)
Theorem parse_path_stop_alignment (first : page) (later : list page)
    (stops : list string) (runs : list run) :
  parse_path first later = Ok (stops, runs) →
  stops = page_stops first ∧
  (∀ run, run ∈ runs → length run = length stops) ∧
  ∃ timetable,
    accumulate first later = Ok timetable ∧
    ∀ j run, runs !! j = Some run →
             Forall2 (λ row x, row !! j = Some x) timetable run.
Proof.
  unfold parse_path.
  destruct (accumulate first later) as [timetable|] eqn:Hacc; simpl; [|done].
  intros [= <- <-]. apply accumulate_lengths in Hacc as Hlen.
  destruct Hlen as [Hlen _]. split; [done|]. split.
  - intros run Hrun%zip_star_run_length. congruence.
  - exists timetable. split; [done|]. intros j run. apply zip_star_lookup.
Qed.

Lemma parse_path_stop_alignment_witness :
  let first := Page ["A"; "B"] [["8:00"; "|"]; ["08:10"; "9:10"]] in
  let later := [Page [] [["10:00"]; ["10:10"]]] in
  let runs : list run :=
    [[Some 480; Some 490]; [None; Some 550]; [Some 600; Some 610]] in
  ["A"; "B"] = page_stops first ∧
  (∀ run, run ∈ runs → length run = length ["A"; "B"]) ∧
  ∃ timetable,
    accumulate first later = Ok timetable ∧
    ∀ j run, runs !! j = Some run →
             Forall2 (λ row x, row !! j = Some x) timetable run.
Proof.
  intros first later runs.
  apply (parse_path_stop_alignment first later ["A"; "B"] runs).
  vm_compute. reflexivity.
Defined.

(** C10. When every page has one row per stop and every cell parses, the
    builder does not raise, however unequal the numbers of time cells of
    the per-stop rows are: the number of runs is the least number of cells
    any stop row has accumulated, the cells of longer rows past that point
    are in no run, and every run still has one entry per stop, taken in
    order from the accumulated rows. *)
Theorem parse_path_ragged_truncates (first : page) (later : list page) :
  rows_match_stops first later →
  cells_well_formed first later →
  ∃ timetable runs,
    accumulate first later = Ok timetable ∧
    length <$> timetable = accumulated_lengths first later ∧
    parse_path first later = Ok (page_stops first, runs) ∧
    length runs = min_of (accumulated_lengths first later) ∧
    (∀ run, run ∈ runs → length run = length (page_stops first)) ∧
    (∀ j run, runs !! j = Some run →
              Forall2 (λ row x, row !! j = Some x) timetable run) ∧
    (∀ j, (min_of (accumulated_lengths first later) ≤ j)%nat →
          runs !! j = None).
Proof.
  intros Hrows Hcells.
  destruct (fetch_loop_ok (page_stops first)
              (replicate (length (page_rows first)) []) (page_rows first) later)
    as [timetable Hacc].
  { apply Forall_cons in Hrows as [? ?]. by constructor. }
  { apply Forall_cons in Hcells as [? ?]. by constructor. }
  fold (accumulate first later) in Hacc.
  destruct (accumulate_lengths _ _ _ Hacc) as [Hlen Hlens].
  exists timetable, (zip_star timetable).
  assert (length (zip_star timetable)
          = min_of (accumulated_lengths first later)) as Hmin.
  { by rewrite zip_star_length, Hlens. }
  split_and!; [done|done| |done| | |].
  - unfold parse_path. by rewrite Hacc.
  - intros run Hrun%zip_star_run_length. congruence.
  - intros j run. apply zip_star_lookup.
  - intros j Hj. apply lookup_ge_None. rewrite <- Hmin in Hj. exact Hj.
Qed.

Lemma parse_path_ragged_truncates_witness :
  let first := Page ["A"; "B"] [["8:00"; "9:00"; "10:00"]; ["8:10"]] in
  let later := [Page [] [["11:00"]; ["|"]]] in
  ∃ timetable runs,
    accumulate first later = Ok timetable ∧
    length <$> timetable = accumulated_lengths first later ∧
    parse_path first later = Ok (page_stops first, runs) ∧
    length runs = min_of (accumulated_lengths first later) ∧
    (∀ run, run ∈ runs → length run = length (page_stops first)) ∧
    (∀ j run, runs !! j = Some run →
              Forall2 (λ row x, row !! j = Some x) timetable run) ∧
    (∀ j, (min_of (accumulated_lengths first later) ≤ j)%nat →
          runs !! j = None).
Proof.
  intros first later. apply (parse_path_ragged_truncates first later).
  - unfold rows_match_stops. repeat (apply Forall_cons_2; [reflexivity|]).
    apply Forall_nil_2.
  - unfold cells_well_formed.
    repeat first
      [ apply Forall_nil_2 | apply Forall_cons_2
      | eexists; vm_compute; reflexivity ].
Defined.

(** A ragged input: stop "A" has four cells, stop "B"
    two; two runs come out and the 10:00 and 11:00 of "A" are dropped. *)
Example parse_path_ragged_example :
  parse_path (Page ["A"; "B"] [["8:00"; "9:00"; "10:00"]; ["8:10"]])
             [Page [] [["11:00"]; ["|"]]]
  = Ok (["A"; "B"], [[Some 480; Some 490]; [Some 540; None]]).
Proof. vm_compute. reflexivity. Qed.

(** ** The command line *)

Section main_properties.
Variable load_config : string → result (gmap string (gmap string Z)).
Variable parse_line : string → string → string → result linedata.
Variable get_text get_latex : tables → string.

(** A format that is given and is not one of the choices is rejected by
    the argument parser, before anything is read or fetched. *)
Lemma main_invalid_choice (c : cli) (f : string) :
  cli_format c = Some f → f ∉ format_choices →
  run_io (main load_config parse_line get_text get_latex c)
  = ([], Raise (SystemExit 2)).
Proof.
  intros Hf Hnot. unfold main, parse_args. rewrite Hf; simpl.
  rewrite (bool_decide_eq_false_2 _ Hnot).
  by destruct (bool_decide (cli_lines c = [])).
Qed.

Lemma fetch_lines_ok (date operator : string) (lines : list string)
    (linesdata : list (string * linedata)) :
  Forall2 (λ line d, d.1 = line ∧ parse_line line date operator = Ok d.2)
          lines linesdata →
  run_io (fetch_lines parse_line date operator lines)
  = ((λ line, EvParseLine line date operator) <$> lines, Ok linesdata).
Proof.
  induction 1 as [|line [line' d] lines linesdata [Hl Hd] _ IH]; [done|].
  simpl in *. subst line'. unfold mbind, io_bind; simpl.
  rewrite Hd; simpl. rewrite IH; simpl. by rewrite app_nil_r.
Qed.

(** Without [--format] the argument parser accepts the command line; the
    configuration is read, every line is fetched and the tables are
    built before the lookup of the formatting function fails. *)
Lemma main_missing_format (c : cli) config linesdata home office tbls :
  cli_format c = None → cli_lines c ≠ [] →
  load_config (cli_config c) = Ok config →
  Forall2 (λ line d,
             d.1 = line ∧
             parse_line line (cli_date c)
               (default "Envibus" (cli_operator c)) = Ok d.2)
          (cli_lines c) linesdata →
  config !! "home" = Some home → config !! "office" = Some office →
  build_table linesdata home office = Ok tbls →
  run_io (main load_config parse_line get_text get_latex c)
  = (EvLoadConfig (cli_config c)
     :: ((λ line, EvParseLine line (cli_date c)
                    (default "Envibus" (cli_operator c))) <$> cli_lines c)
     ++ [EvBuildTable],
     Raise KeyError).
Proof.
  intros Hf Hlines Hconfig Hfetch Hhome Hoffice Htbls.
  unfold main, parse_args. rewrite Hf; simpl.
  rewrite (bool_decide_eq_false_2 _ Hlines).
  unfold mbind, io_bind; simpl. rewrite Hconfig; simpl.
  rewrite (fetch_lines_ok _ _ _ _ Hfetch); simpl.
  unfold getitem. rewrite Hhome, Hoffice; simpl. by rewrite Htbls.
Qed.
End main_properties.

(** C8 (the code departs from it). [python scrape.py 2020-01-06
    config.json 1], with no [--format]: the configuration is read, line 1
    is fetched and the tables are built, and only then does the program
    fail, with the [KeyError] of [FORMATTING_FUNCTIONS[None]] and not with
    the argument parser's error. *)
Theorem main_missing_format_fails_late :
  let load_config (path : string) : result (gmap string (gmap string Z)) :=
    Ok {["home" := {["A" := 5]}; "office" := {["C" := 3]}]} in
  let parse_line (line date operator : string) : result linedata :=
    Ok [("A > C", (["A"; "B"; "C"], [[Some 480; Some 490; Some 500]]))] in
  let get_text (_ : tables) : string := "text" in
  let get_latex (_ : tables) : string := "latex" in
  check_choice None = true ∧
  run_io (main load_config parse_line get_text get_latex
            (Cli "2020-01-06" "config.json" ["1"] None None))
  = ([EvLoadConfig "config.json";
      EvParseLine "1" "2020-01-06" "Envibus";
      EvBuildTable],
     Raise KeyError) ∧
  run_io (main load_config parse_line get_text get_latex
            (Cli "2020-01-06" "config.json" ["1"] None (Some "html")))
  = ([], Raise (SystemExit 2)).
Proof. repeat split; vm_compute; reflexivity. Qed.


(** * Further properties of the code *)

(** ** [filter_idx] and [classify] *)

Lemma filter_idx_from_sorted k (stops : list string) (anchor : gmap string Z) :
  Forall (λ e, (k ≤ entry_index e)%nat) (filter_idx_from k stops anchor) ∧
  StronglySorted lt (entry_index <$> filter_idx_from k stops anchor).
Proof.
  revert k. induction stops as [|stop rest IH]; intros k; simpl.
  - split; constructor.
  - destruct (IH (S k)) as [Hge Hsorted].
    assert (Forall (λ e, (k ≤ entry_index e)%nat)
              (filter_idx_from (S k) rest anchor)) as Hge'.
    { eapply Forall_impl; [exact Hge|]. intros e He. simpl in He. lia. }
    destruct (anchor !! stop) as [delta|]; [|done].
    split.
    + constructor; [unfold entry_index; simpl; lia|done].
    + rewrite fmap_cons. constructor; [done|].
      apply Forall_fmap. eapply Forall_impl; [exact Hge|].
      intros e He. unfold entry_index in *. simpl in *. lia.
Qed.

(** [filter_idx] lists exactly the stops of the route that are keys of the
    dictionary, each with its position and its walking time, in the order
    of the route: the positions are strictly increasing. *)
Theorem filter_idx_spec (stops : list string) (anchor : gmap string Z) :
  (∀ i s d, (i, s, d) ∈ filter_idx stops anchor ↔
            stops !! i = Some s ∧ anchor !! s = Some d) ∧
  StronglySorted lt (entry_index <$> filter_idx stops anchor).
Proof.
  split; [intros i s d; apply elem_of_filter_idx|].
  apply filter_idx_from_sorted.
Qed.

Lemma filter_idx_nil (stops : list string) (anchor : gmap string Z) :
  filter_idx stops anchor = [] ↔ usable_indices stops anchor = [].
Proof.
  split; intros Hnil.
  - destruct (usable_indices stops anchor) as [|i l] eqn:Hu; [done|].
    assert (i ∈ usable_indices stops anchor) as Hi by (rewrite Hu; by left).
    apply elem_of_usable_indices in Hi as (s & d & Hs & Hd).
    assert ((i, s, d) ∈ filter_idx stops anchor) as Hin
      by by apply elem_of_filter_idx.
    rewrite Hnil in Hin. by apply elem_of_nil in Hin.
  - destruct (filter_idx stops anchor) as [|[[i s] d] l] eqn:Hf; [done|].
    assert ((i, s, d) ∈ filter_idx stops anchor) as Hin
      by (rewrite Hf; by left).
    apply elem_of_filter_idx in Hin as [Hs Hd].
    assert (i ∈ usable_indices stops anchor) as Hi
      by (apply elem_of_usable_indices; eauto).
    rewrite Hnil in Hi. by apply elem_of_nil in Hi.
Qed.

(** A route none of whose stops is a home stop, or none of whose stops is
    an office stop, is not classified: the [max] or [min] of line 101
    raises its own [ValueError] on the empty list, which is not the
    ambiguous-direction error of line 108. *)
Theorem classify_no_usable_stop (stops : list string)
    (home office : gmap string Z) :
  usable_indices stops home = [] ∨ usable_indices stops office = [] →
  classify stops home office
  = Raise (ValueError (if decide (usable_indices stops home = [])
                       then "max() arg is an empty sequence"
                       else "min() arg is an empty sequence")).
Proof.
  intros Hempty. unfold classify.
  destruct (decide (usable_indices stops home = [])) as [Hh|Hh].
  - apply filter_idx_nil in Hh. by rewrite Hh.
  - destruct Hempty as [?|Ho]; [done|].
    apply filter_idx_nil in Ho. rewrite Ho.
    destruct (filter_idx stops home) as [|e l] eqn:Hf; [|done].
    by apply filter_idx_nil in Hf.
Qed.

Lemma classify_no_usable_stop_witness :
  classify ["A"; "B"] {["A" := 5]} {["C" := 3]}
  = Raise (ValueError
             (if decide (usable_indices ["A"; "B"] {["A" := 5]} = [])
              then "max() arg is an empty sequence"
              else "min() arg is an empty sequence")).
Proof.
  apply (classify_no_usable_stop ["A"; "B"] {["A" := 5]} {["C" := 3]}).
  right. vm_compute. reflexivity.
Defined.

Lemma py_lt_same_stop (i : nat) (s : string) (d d' : Z) :
  py_lt (i, s, d) (i, s, d') = bool_decide (d < d').
Proof.
  unfold_cmp. rewrite Nat.compare_refl, string_compare_refl.
  destruct (Z.compare_spec d d'); case_bool_decide; (done || lia).
Qed.

(** When the last home stop of the route is also its first office stop,
    line 101 compares the two walking times of that stop: the route is
    labelled home→office when the walk from home is the shorter one, and
    is rejected as ambiguous otherwise (the office range reaching past the
    first home stop). *)
Theorem classify_shared_boundary (stops : list string)
    (home office : gmap string Z) (minHome boundary maxOffice : nat)
    (stop : string) (walk_home walk_office : Z) :
  index_range (usable_indices stops home) = Some (minHome, boundary) →
  index_range (usable_indices stops office) = Some (boundary, maxOffice) →
  stops !! boundary = Some stop →
  home !! stop = Some walk_home → office !! stop = Some walk_office →
  (minHome < maxOffice)%nat →
  classify stops home office
  = if decide (walk_home < walk_office)
    then Ok (Home2Office, filter_idx stops home, filter_idx stops office)
    else Raise (ValueError ambiguous_msg).
Proof.
  intros Hh Ho Hstop Hwh Hwo Hlt.
  destruct (py_max_filter_idx _ _ _ _ Hh) as (s1 & d1 & Hmaxh & Hs1 & Hd1).
  destruct (py_min_filter_idx _ _ _ _ Hh) as (s2 & d2 & Hminh & _).
  destruct (py_max_filter_idx _ _ _ _ Ho) as (s3 & d3 & Hmaxo & _).
  destruct (py_min_filter_idx _ _ _ _ Ho) as (s4 & d4 & Hmino & Hs4 & Hd4).
  simplify_eq. unfold classify. rewrite Hmaxh, Hmino; simpl.
  rewrite py_lt_same_stop. case_bool_decide.
  - by rewrite decide_True.
  - rewrite decide_False by done. rewrite Hmaxo, Hminh; simpl.
    by rewrite py_lt_idx_gt.
Qed.

Lemma classify_shared_boundary_witness :
  let stops := ["A"; "B"; "C"] in
  let home : gmap string Z := {["A" := 10; "B" := 12]} in
  let office : gmap string Z := {["B" := 3; "C" := 2]} in
  classify stops home office
  = if decide (12 < 3)
    then Ok (Home2Office, filter_idx stops home, filter_idx stops office)
    else Raise (ValueError ambiguous_msg).
Proof.
  intros stops home office.
  apply (classify_shared_boundary stops home office 0%nat 1%nat 2%nat "B");
    try (vm_compute; reflexivity).
  lia.
Defined.

Lemma classify_overlap_rejected_witness :
  classify ["A"; "B"; "C"; "D"] {["A" := 5; "C" := 4]} {["B" := 3; "D" := 2]}
  = Raise (ValueError ambiguous_msg).
Proof.
  apply (classify_overlap_rejected ["A"; "B"; "C"; "D"]
           {["A" := 5; "C" := 4]} {["B" := 3; "D" := 2]}
           0%nat 2%nat 1%nat 3%nat);
    try (vm_compute; reflexivity); lia.
Defined.

Lemma py_max_ok_upper {A} `{OrdLaws A} (l : list A) m x :
  py_max l = Ok m → x ∈ l → py_lt m x = false.
Proof.
  destruct l as [|b l]; [done|]. intros [= <-]. apply max_from_upper.
Qed.

Lemma py_min_ok_lower {A} `{OrdLaws A} (l : list A) m x :
  py_min l = Ok m → x ∈ l → py_lt x m = false.
Proof.
  destruct l as [|b l]; [done|]. intros [= <-]. apply min_from_lower.
Qed.

Lemma py_lt_true_idx (i i' : nat) (s s' : string) (d d' : Z) :
  py_lt (i, s, d) (i', s', d') = true → (i ≤ i')%nat.
Proof.
  intros Hlt. destruct (decide (i' < i)%nat) as [Hi|Hi]; [|lia].
  by rewrite py_lt_idx_gt in Hlt.
Qed.

(** On a classified route no origin-side stop comes after a
    destination-side stop in the stop ordering. *)
Theorem classify_orders_stops (stops : list string)
    (home office : gmap string Z) (d : direction)
    (idx_orig idx_dest : list idx_entry) (eo ed : idx_entry) :
  classify stops home office = Ok (d, idx_orig, idx_dest) →
  eo ∈ idx_orig → ed ∈ idx_dest →
  (entry_index eo ≤ entry_index ed)%nat.
Proof.
  unfold classify.
  destruct (py_max (filter_idx stops home)) as [mh|] eqn:Hmh; simpl; [|done].
  destruct (py_min (filter_idx stops office)) as [mo|] eqn:Hmo; simpl;
    [|done].
  destruct (py_lt mh mo) eqn:Hlt.
  - intros [= <- <- <-] Ho Hd.
    pose proof (py_max_ok_upper _ _ _ Hmh Ho) as H1.
    pose proof (py_min_ok_lower _ _ _ Hmo Hd) as H2.
    destruct eo as [[i s] w], ed as [[j s'] w'], mh as [[a sa] wa],
      mo as [[b sb] wb].
    apply py_lt_idx_le in H1, H2. apply py_lt_true_idx in Hlt.
    unfold entry_index; simpl. lia.
  - destruct (py_max (filter_idx stops office)) as [mo'|] eqn:Hmo'; simpl;
      [|done].
    destruct (py_min (filter_idx stops home)) as [mh'|] eqn:Hmh'; simpl;
      [|done].
    destruct (py_lt mo' mh') eqn:Hlt'; [|done].
    intros [= <- <- <-] Ho Hd.
    pose proof (py_max_ok_upper _ _ _ Hmo' Ho) as H1.
    pose proof (py_min_ok_lower _ _ _ Hmh' Hd) as H2.
    destruct eo as [[i s] w], ed as [[j s'] w'], mh' as [[a sa] wa],
      mo' as [[b sb] wb].
    apply py_lt_idx_le in H1, H2. apply py_lt_true_idx in Hlt'.
    unfold entry_index; simpl. lia.
Qed.

Lemma classify_orders_stops_witness :
  (entry_index (0%nat, "A", 5%Z) ≤ entry_index (2%nat, "C", 3%Z))%nat.
Proof.
  apply (classify_orders_stops ["A"; "B"; "C"] {["A" := 5]} {["C" := 3]}
           Home2Office [(0%nat, "A", 5)] [(2%nat, "C", 3)]).
  - vm_compute. reflexivity.
  - by left.
  - by left.
Defined.

(** ** [get_stops], the runs and the output of [build_table] *)

Lemma get_stops_ok_spec (idxlist : list idx_entry) (times : run) l :
  get_stops idxlist times = Ok l →
  ∀ t s d, (t, s, d) ∈ l ↔
           ∃ i, (i, s, d) ∈ idxlist ∧ times !! i = Some (Some t).
Proof.
  revert l. induction idxlist as [|[[i s] d] rest IH]; intros l; simpl.
  - intros [= <-] t s d. split.
    + by intros ?%elem_of_nil.
    + by intros (i & ?%elem_of_nil & _).
  - destruct (times !! i) as [[time|]|] eqn:Hi; [| |done].
    + destruct (get_stops rest times) as [l'|]; simpl; [|done].
      intros [= <-] t s' d'. rewrite elem_of_cons, (IH l' eq_refl). split.
      * intros [[= -> -> ->]|(i' & Hin & Ht)].
        -- exists i. split; [by left|done].
        -- exists i'. split; [by right|done].
      * intros (i' & [[= -> -> ->]|Hin]%elem_of_cons & Ht).
        -- left. congruence.
        -- right. eauto.
    + intros Hl t s' d'. rewrite (IH l Hl). split.
      * intros (i' & Hin & Ht). exists i'. split; [by right|done].
      * intros (i' & [[= -> -> ->]|Hin]%elem_of_cons & Ht); [congruence|eauto].
Qed.

Lemma get_stops_index_error (idxlist : list idx_entry) (times : run) e :
  e ∈ idxlist → (length times ≤ entry_index e)%nat →
  get_stops idxlist times = Raise IndexError.
Proof.
  induction idxlist as [|[[i s] d] rest IH]; [by intros ?%elem_of_nil|].
  intros [->|Hin]%elem_of_cons Hlen; simpl.
  - unfold entry_index in Hlen; simpl in Hlen.
    destruct (times !! i) as [c|] eqn:Hi; [|done].
    apply lookup_lt_Some in Hi. lia.
  - rewrite (IH Hin Hlen). by destruct (times !! i) as [[?|]|].
Qed.

(** A run with fewer entries than the position of a usable origin-side
    stop is not skipped: [thetimes[idx]] raises [IndexError], which the
    [except ValueError] clause does not catch. *)
Theorem match_run_index_error (idx_orig idx_dest : list idx_entry)
    (line : string) (times : run) (e : idx_entry) :
  e ∈ idx_orig → (length times ≤ entry_index e)%nat →
  match_run idx_orig idx_dest line times = Raise IndexError.
Proof.
  intros Hin Hlen. unfold match_run.
  by rewrite (get_stops_index_error _ _ _ Hin Hlen).
Qed.

Lemma match_run_index_error_witness :
  match_run [(0%nat, "A", 5); (1%nat, "B", 2)] [(2%nat, "C", 3)] "1"
    [Some 480] = Raise IndexError.
Proof.
  apply (match_run_index_error _ _ _ _ (1%nat, "B", 2)).
  - right. by left.
  - vm_compute. done.
Defined.

Lemma py_max_ok_elem {A} `{OrdLaws A} (l : list A) m :
  py_max l = Ok m → m ∈ l.
Proof. destruct l as [|b l]; [done|]. intros [= <-]. apply max_from_elem_of. Qed.

Lemma py_min_ok_elem {A} `{OrdLaws A} (l : list A) m :
  py_min l = Ok m → m ∈ l.
Proof. destruct l as [|b l]; [done|]. intros [= <-]. apply min_from_elem_of. Qed.

Lemma match_run_sound (idx_orig idx_dest : list idx_entry) (line : string)
    (times : run) (t : trip) :
  match_run idx_orig idx_dest line times = Ok (Some t) →
  ∃ ib tb sb wb ia ta sa wa,
    t = ((tb - wb, tb, sb), (ta + wa, ta, sa), line) ∧
    (ib, sb, wb) ∈ idx_orig ∧ times !! ib = Some (Some tb) ∧
    (ia, sa, wa) ∈ idx_dest ∧ times !! ia = Some (Some ta).
Proof.
  unfold match_run.
  destruct (get_stops idx_orig times) as [os|[]] eqn:Hos; simpl; try done.
  destruct (py_max (orig_candidate <$> os)) as [mo|[]] eqn:Hmo; try done.
  destruct (get_stops idx_dest times) as [ds|[]] eqn:Hds; simpl; try done.
  destruct (py_min (dest_candidate <$> ds)) as [md|[]] eqn:Hmd; try done.
  intros [= <-].
  apply py_max_ok_elem, list_elem_of_fmap in Hmo as ([[tb sb] wb] & -> & Hb).
  apply py_min_ok_elem, list_elem_of_fmap in Hmd as ([[ta sa] wa] & -> & Ha).
  apply (get_stops_ok_spec _ _ _ Hos) in Hb as (ib & Hib & Htb).
  apply (get_stops_ok_spec _ _ _ Hds) in Ha as (ia & Hia & Hta).
  by exists ib, tb, sb, wb, ia, ta, sa, wa.
Qed.

(** The output lists hold exactly the trips of the runs: every trip listed
    for a direction is the trip of some run of some route classified in
    that direction, and the trip of every such run is listed. *)
Theorem build_trips_emitted (linesdata : list (string * linedata))
    (home office : gmap string Z) (out : list trip * list trip) :
  build_trips linesdata home office = Ok out →
  ∀ d t, t ∈ output_of d out ↔ emits linesdata home office d t.
Proof. intros Hout d t. by apply build_trips_elem_of. Qed.

Lemma build_trips_emitted_witness :
  let t : trip := ((475, 480, "A"), (503, 500, "C"), "1") in
  t ∈ output_of Home2Office ([t], []) ↔
  emits [("1", [("A > C", (["A"; "B"; "C"],
                           [[Some 480; Some 490; Some 500]]))])]
        {["A" := 5]} {["C" := 3]} Home2Office t.
Proof.
  intros t.
  apply (build_trips_emitted
           [("1", [("A > C", (["A"; "B"; "C"],
                              [[Some 480; Some 490; Some 500]]))])]
           {["A" := 5]} {["C" := 3]} ([t], [])).
  vm_compute. reflexivity.
Defined.

(** Every trip of the output boards at an origin-side stop and alights at
    a destination-side stop of the configuration; its leave-anchor time is
    its board time less the walking time of the board stop, its
    arrive-anchor time is its alight time plus the walking time of the
    alight stop, and its line is one of the lines of the input. *)
Theorem build_trips_trip_shape (linesdata : list (string * linedata))
    (home office : gmap string Z) (out : list trip * list trip)
    (d : direction) (t : trip) :
  build_trips linesdata home office = Ok out →
  t ∈ output_of d out →
  ∃ walk_board walk_alight,
    origin_of d home office !! board_stop t = Some walk_board ∧
    destination_of d home office !! alight_stop t = Some walk_alight ∧
    leave_time t = board_time t - walk_board ∧
    arrive_time t = alight_time t + walk_alight ∧
    ∃ routes, (trip_line t, routes) ∈ linesdata.
Proof.
  intros Hout Ht. apply (build_trips_elem_of _ _ _ _ _ _ Hout) in Ht.
  destruct Ht as ([line routes] & Hl & [label [stops timetable]] & Hr &
                  io & id & times & Hc & Htimes & Hrun).
  simpl in *. apply classify_inv in Hc as [-> ->].
  apply match_run_sound in Hrun
    as (ib & tb & sb & wb & ia & ta & sa & wa & -> & Hb & _ & Ha & _).
  apply elem_of_filter_idx in Hb as [_ Hb].
  apply elem_of_filter_idx in Ha as [_ Ha].
  exists wb, wa. split_and!; [done..|]. by exists routes.
Qed.

Lemma build_trips_trip_shape_witness :
  let t : trip := ((475, 480, "A"), (503, 500, "C"), "1") in
  let linesdata :=
    [("1", [("A > C", (["A"; "B"; "C"], [[Some 480; Some 490; Some 500]]))])] in
  ∃ walk_board walk_alight,
    origin_of Home2Office {["A" := 5]} {["C" := 3]} !! board_stop t
    = Some walk_board ∧
    destination_of Home2Office {["A" := 5]} {["C" := 3]} !! alight_stop t
    = Some walk_alight ∧
    leave_time t = board_time t - walk_board ∧
    arrive_time t = alight_time t + walk_alight ∧
    ∃ routes, (trip_line t, routes) ∈ linesdata.
Proof.
  intros t linesdata.
  apply (build_trips_trip_shape linesdata {["A" := 5]} {["C" := 3]}
           ([t], []) Home2Office t).
  - vm_compute. reflexivity.
  - by left.
Defined.

Lemma py_for_returns {A S} (body : A → S → result S) (ok : A → Prop) :
  (∀ x s, returns (body x s) ↔ ok x) →
  ∀ l s, returns (py_for body l s) ↔ Forall ok l.
Proof.
  intros Hbody l. induction l as [|x l IH]; intros s; simpl.
  - split; [constructor|done].
  - rewrite Forall_cons, <- (Hbody x s).
    destruct (body x s) as [s'|e]; simpl; [|naive_solver].
    rewrite IH. naive_solver.
Qed.

Lemma do_route_returns home office line item st :
  returns (do_route home office line item st) ↔
  route_accepted home office line item.
Proof.
  destruct item as [label [stops timetable]].
  unfold do_route, route_accepted; simpl.
  destruct (classify stops home office) as [[[d io] id]|e]; simpl;
    [|naive_solver].
  assert (∀ trips, returns (py_for (add_run io id line) timetable trips) ↔
                   ∀ times, times ∈ timetable →
                            returns (match_run io id line times)) as Hruns.
  { intros trips. rewrite <- Forall_forall. apply py_for_returns.
    intros times s. unfold add_run.
    by destruct (match_run io id line times). }
  assert ((∃ d' io' id', Ok (d, io, id) = Ok (d', io', id') ∧
             ∀ times, times ∈ timetable →
                      returns (match_run io' id' line times)) ↔
          ∀ times, times ∈ timetable →
                   returns (match_run io id line times)) as ->
    by naive_solver.
  destruct d.
  - rewrite <- (Hruns st.1). by destruct (py_for _ timetable st.1).
  - rewrite <- (Hruns st.2). by destruct (py_for _ timetable st.2).
Qed.

Lemma build_trips_returns_routes (linesdata : list (string * linedata))
    (home office : gmap string Z) :
  returns (build_trips linesdata home office) ↔
  ∀ line routes item,
    (line, routes) ∈ linesdata → item ∈ routes →
    route_accepted home office line item.
Proof.
  assert (returns (build_trips linesdata home office) ↔
          returns (py_for (do_line home office) linesdata (∅, ∅))) as ->.
  { unfold build_trips. by destruct (py_for _ linesdata _). }
  rewrite (py_for_returns _
             (λ l, Forall (route_accepted home office l.1) l.2)).
  - rewrite Forall_forall. split.
    + intros Hall line routes item Hl Hitem.
      specialize (Hall _ Hl). simpl in Hall.
      by apply (proj1 (Forall_forall _ _) Hall).
    + intros Hall [line routes] Hl. simpl. apply Forall_forall.
      intros item Hitem. by apply (Hall line routes).
  - intros [line routes] st. unfold do_line; simpl.
    apply py_for_returns. intros item st'. apply do_route_returns.
Qed.

(** [build_table] gives a result only when every route of every line is
    classified and none of its runs raises; one route with no usable
    stop, or with an ambiguous direction, fails the whole call. *)
Theorem build_trips_returns_iff (linesdata : list (string * linedata))
    (home office : gmap string Z) :
  returns (build_trips linesdata home office) ↔
  ∀ line routes item,
    (line, routes) ∈ linesdata → item ∈ routes →
    route_accepted home office line item.
Proof. apply build_trips_returns_routes. Qed.

Lemma emits_Permutation (l1 l2 : list (string * linedata))
    (home office : gmap string Z) d t :
  l1 ≡ₚ l2 → emits l1 home office d t → emits l2 home office d t.
Proof.
  intros Hperm (l & Hl & Hemit). exists l. split; [|done]. by rewrite <- Hperm.
Qed.

(** The result does not depend on the order in which the lines are given:
    the same lines in another order give the same two lists. *)
Theorem build_trips_Permutation (l1 l2 : list (string * linedata))
    (home office : gmap string Z) (out : list trip * list trip) :
  build_trips l1 home office = Ok out → l1 ≡ₚ l2 →
  build_trips l2 home office = Ok out.
Proof.
  intros Hout Hperm.
  assert (returns (build_trips l2 home office)) as Hret.
  { apply build_trips_returns_routes. intros line routes item Hl.
    assert (returns (build_trips l1 home office)) as H1 by by rewrite Hout.
    apply (proj1 (build_trips_returns_routes _ _ _) H1). by rewrite Hperm. }
  destruct (build_trips l2 home office) as [out'|] eqn:Hout'; [|done].
  f_equal.
  assert (∀ d, output_of d out' = output_of d out) as Heq.
  { intros d.
    destruct (build_trips_inv _ _ _ _ Hout) as (st & Hst & Ho).
    destruct (build_trips_inv _ _ _ _ Hout') as (st' & Hst' & Ho').
    rewrite Ho, Ho'. f_equal. apply set_eq. intros t.
    rewrite (py_for_do_line_collect _ _ _ _ _ Hst t),
      (py_for_do_line_collect _ _ _ _ _ Hst' t).
    split; apply emits_Permutation; done. }
  destruct out as [h o], out' as [h' o'].
  pose proof (Heq Home2Office). pose proof (Heq Office2Home).
  simpl in *. congruence.
Qed.

Lemma build_trips_Permutation_witness :
  let r1 : linedata :=
    [("A > C", (["A"; "B"; "C"], [[Some 540; Some 550; Some 560]]))] in
  let r2 : linedata :=
    [("A > C", (["A"; "C"], [[Some 480; Some 500]]))] in
  build_trips [("2", r2); ("1", r1)] {["A" := 5]} {["C" := 3]}
  = Ok ([((475, 480, "A"), (503, 500, "C"), "2");
         ((535, 540, "A"), (563, 560, "C"), "1")], []).
Proof.
  intros r1 r2.
  apply (build_trips_Permutation [("1", r1); ("2", r2)]).
  - vm_compute. reflexivity.
  - apply Permutation_swap.
Defined.

(** ** Times: [time_s] and [parse_time] *)

Lemma time_of_day (k h m : Z) :
  0 ≤ h < 24 → 0 ≤ m < 60 →
  ((1440 * k + 60 * h + m) `mod` 1440) `div` 60 = h ∧
  (1440 * k + 60 * h + m) `mod` 60 = m.
Proof.
  intros Hh Hm.
  assert ((1440 * k + 60 * h + m) `mod` 1440 = 60 * h + m) as ->.
  { symmetry. apply (Z.mod_unique_pos _ _ k); lia. }
  split.
  - symmetry. apply (Z.div_unique_pos _ _ _ m); lia.
  - symmetry. apply (Z.mod_unique_pos _ _ (24 * k + h)); lia.
Qed.

(** [time_s] shows the hour without a leading zero and the minute with two
    digits, whatever the date part of the [datetime]. *)
Theorem time_s_format (k h m : Z) :
  0 ≤ h < 24 → 0 ≤ m < 60 →
  time_s (1440 * k + 60 * h + m) = pretty h +:+ ":" +:+ two_digits m.
Proof.
  intros Hh Hm. unfold time_s, strftime_HM.
  destruct (time_of_day k h m Hh Hm) as [-> ->].
  assert (h = 0 ∨ h = 1 ∨ h = 2 ∨ h = 3 ∨ h = 4 ∨ h = 5 ∨ h = 6 ∨ h = 7 ∨
          h = 8 ∨ h = 9 ∨ h = 10 ∨ h = 11 ∨ h = 12 ∨ h = 13 ∨ h = 14 ∨
          h = 15 ∨ h = 16 ∨ h = 17 ∨ h = 18 ∨ h = 19 ∨ h = 20 ∨ h = 21 ∨
          h = 22 ∨ h = 23) as Hcases by lia.
  repeat (destruct Hcases as [->|Hcases]; [reflexivity|]).
  subst h. reflexivity.
Qed.

Lemma time_s_format_witness :
  time_s (1440 * 3 + 60 * 9 + 5) = pretty 9 +:+ ":" +:+ two_digits 5.
Proof. apply (time_s_format 3 9 5); lia. Defined.

Lemma digit_val_range (a : Ascii.ascii) (x : Z) :
  digit_val a = Some x → 0 ≤ x ≤ 9.
Proof. unfold digit_val. case_bool_decide; [|done]. intros [= <-]. lia. Qed.

Lemma take_hour_range (l rest : list Ascii.ascii) (h : Z) :
  take_hour l = Some (h, rest) → 0 ≤ h ≤ 23.
Proof.
  destruct l as [|a l]; [done|]. simpl.
  destruct (digit_val a) as [x|] eqn:Hx; [|done]. simpl.
  apply digit_val_range in Hx.
  destruct l as [|b l]; [intros [= <- _]; lia|].
  destruct (digit_val b) as [y|] eqn:Hy; [|intros [= <- _]; lia].
  apply digit_val_range in Hy.
  case_bool_decide; intros [= <- _]; lia.
Qed.

Lemma take_minute_range (l rest : list Ascii.ascii) (m : Z) :
  take_minute l = Some (m, rest) → 0 ≤ m ≤ 59.
Proof.
  destruct l as [|a l]; [done|]. simpl.
  destruct (digit_val a) as [x|] eqn:Hx; [|done]. simpl.
  apply digit_val_range in Hx.
  destruct l as [|b l]; [intros [= <- _]; lia|].
  destruct (digit_val b) as [y|] eqn:Hy; [|intros [= <- _]; lia].
  apply digit_val_range in Hy.
  case_bool_decide; intros [= <- _]; lia.
Qed.

(** Every text [parse_time] accepts is a time of the day: between 0:00
    and 23:59. *)
Theorem parse_time_range (timestring : string) (time : Z) :
  parse_time timestring = Ok time → 0 ≤ time < 1440.
Proof.
  unfold parse_time.
  destruct (take_hour _) as [[h [|c rest]]|] eqn:Hh; try done.
  case_bool_decide; [|done].
  destruct (take_minute rest) as [[m [|? ?]]|] eqn:Hm; try done.
  intros [= <-]. apply take_hour_range in Hh. apply take_minute_range in Hm.
  lia.
Qed.

Lemma parse_time_range_witness : 0 ≤ 23 * 60 + 59 < 1440.
Proof. apply (parse_time_range "23:59"). vm_compute. reflexivity. Defined.

Lemma parse_time_round_trip_table :
  Forall (λ n : nat,
            parse_time (strftime_HM (Z.of_nat n)) = Ok (Z.of_nat n) ∧
            parse_time (time_s (Z.of_nat n)) = Ok (Z.of_nat n))
         (seq 0 1440).
Proof. apply (bool_decide_unpack _). vm_compute. exact I. Qed.

Lemma strftime_HM_mod (time : Z) :
  strftime_HM (time `mod` 1440) = strftime_HM time.
Proof.
  unfold strftime_HM. rewrite Z.mod_mod by lia.
  assert ((time `mod` 1440) `mod` 60 = time `mod` 60) as ->; [|done].
  pose proof (Z.div_mod time 1440 ltac:(lia)) as Hdm.
  pose proof (Z.mod_pos_bound time 1440 ltac:(lia)).
  symmetry. rewrite Hdm at 1.
  replace (1440 * (time `div` 1440) + time `mod` 1440)
    with (time `mod` 1440 + (24 * (time `div` 1440)) * 60) by lia.
  apply Z.mod_add. lia.
Qed.

(** Reading back what [strftime] or [time_s] wrote gives the time of the
    day again: the date part is dropped, hour and minute are kept. *)
Theorem parse_time_round_trip (time : Z) :
  parse_time (strftime_HM time) = Ok (time `mod` 1440) ∧
  parse_time (time_s time) = Ok (time `mod` 1440).
Proof.
  pose proof (Z.mod_pos_bound time 1440 ltac:(lia)) as Hrange.
  assert (time_s time = time_s (time `mod` 1440)) as ->.
  { unfold time_s. by rewrite strftime_HM_mod. }
  rewrite <- strftime_HM_mod.
  pose proof (proj1 (Forall_forall _ _) parse_time_round_trip_table
                (Z.to_nat (time `mod` 1440))) as Hn.
  cbv beta in Hn. rewrite Z2Nat.id in Hn by lia. apply Hn.
  apply elem_of_seq. lia.
Qed.

(** ** The pages of [parse_path] *)

Lemma parse_row_Forall2 (cells : list string) data :
  parse_row cells = Ok data →
  Forall2 (λ text c, parse_cell text = Ok c) cells data.
Proof.
  revert data. induction cells as [|text cells IH]; intros data; simpl.
  - intros [= <-]. constructor.
  - destruct (parse_cell text) as [c|] eqn:Hc; simpl; [|done].
    destruct (parse_row cells) as [l|]; simpl; [|done].
    intros [= <-]. constructor; [done|]. by apply IH.
Qed.

Lemma extend_rows_cells timetable (rows joined : list (list string))
    timetable' :
  length timetable = length rows →
  Forall2 (Forall2 (λ text c, parse_cell text = Ok c)) joined timetable →
  extend_rows timetable rows = Ok timetable' →
  Forall2 (Forall2 (λ text c, parse_cell text = Ok c))
          (zip_with app joined rows) timetable'.
Proof.
  intros Hlen Hj. revert rows timetable' Hlen.
  induction Hj as [|cells timerow joined timetable Hrow _ IH];
    intros [|row rows] timetable'; simpl; try done.
  - intros _ [= <-]. constructor.
  - intros [= Hlen].
    destruct (parse_row row) as [data|] eqn:Hdata; simpl; [|done].
    destruct (extend_rows timetable rows) as [rest|] eqn:Hrest; simpl; [|done].
    intros [= <-]. constructor; [|by apply IH].
    apply Forall2_app; [done|]. by apply parse_row_Forall2.
Qed.

Lemma extend_rows_length timetable (rows : list (list string)) timetable' :
  extend_rows timetable rows = Ok timetable' →
  length timetable' = length timetable.
Proof.
  revert rows timetable'.
  induction timetable as [|timerow timetable IH];
    intros [|row rows] timetable'; simpl; try by intros [= <-].
  destruct (parse_row row) as [data|]; simpl; [|done].
  destruct (extend_rows timetable rows) as [rest|] eqn:Hrest; simpl; [|done].
  intros [= <-]. simpl. f_equal. by eapply IH.
Qed.

Lemma fetch_loop_cells stops timetable (rows joined : list (list string))
    later timetable' :
  length timetable = length stops →
  Forall2 (Forall2 (λ text c, parse_cell text = Ok c)) joined timetable →
  fetch_loop stops timetable rows later = Ok timetable' →
  Forall2 (Forall2 (λ text c, parse_cell text = Ok c))
          (foldl (λ acc p, zip_with app acc (page_rows p)) joined
                 (Page [] rows :: later))
          timetable'.
Proof.
  revert timetable rows joined. induction later as [|p later IH];
    intros timetable rows joined Htt Hj; simpl.
  - case_bool_decide as Hrows; [|done].
    destruct (extend_rows timetable rows) as [tt|] eqn:Hext; simpl; [|done].
    intros [= <-]. eapply extend_rows_cells; [|done..]. congruence.
  - case_bool_decide as Hrows; [|done].
    destruct (extend_rows timetable rows) as [tt|] eqn:Hext; simpl; [|done].
    apply IH.
    + apply extend_rows_length in Hext. congruence.
    + eapply extend_rows_cells; [|done..]. congruence.
Qed.

(** Entry [i] of run [j] of the route comes from the [j]-th cell that the
    pages, in the order they are read, show for stop [i]: it is that
    cell's time, and it is [None] exactly when the cell is the ['|']
    placeholder. *)
Theorem parse_path_entry (first : page) (later : list page)
    (stops : list string) (runs : list run) (i j : nat) (run_j : run)
    (entry : option Z) :
  parse_path first later = Ok (stops, runs) →
  runs !! j = Some run_j → run_j !! i = Some entry →
  ∃ cells text,
    joined_rows first later !! i = Some cells ∧ cells !! j = Some text ∧
    parse_cell text = Ok entry ∧ (entry = None ↔ text = "|").
Proof.
  unfold parse_path.
  destruct (accumulate first later) as [timetable|] eqn:Hacc; simpl; [|done].
  intros [= <- <-] Hj Hi.
  apply zip_star_lookup in Hj.
  destruct (Forall2_lookup_r _ _ _ _ _ Hj Hi) as (row & Hrow & Hentry).
  assert (Forall2 (Forall2 (λ text c, parse_cell text = Ok c))
            (joined_rows first later) timetable) as Hcells.
  { unfold accumulate in Hacc. unfold joined_rows.
    assert (length (page_stops first) = length (page_rows first)) as Hfirst.
    { destruct later; simpl in Hacc; by case_bool_decide. }
    apply (fetch_loop_cells (page_stops first)
             (replicate (length (page_rows first)) [])
             (page_rows first)
             (replicate (length (page_rows first)) []) later timetable)
      in Hacc; [done|by rewrite length_replicate|].
    clear. induction (length (page_rows first)); simpl; by repeat constructor. }
  destruct (Forall2_lookup_r _ _ _ _ _ Hcells Hrow) as (cells & Hc & Hrow').
  destruct (Forall2_lookup_r _ _ _ _ _ Hrow' Hentry) as (text & Ht & Hparse).
  exists cells, text. split_and!; [done..|].
  unfold parse_cell in Hparse. case_bool_decide as Hbar.
  - by simplify_eq.
  - destruct (parse_time text); simplify_eq/=. naive_solver.
Qed.

Lemma parse_path_entry_witness :
  let first := Page ["A"; "B"] [["8:00"; "|"]; ["08:10"; "9:10"]] in
  let later := [Page [] [["10:00"]; ["10:10"]]] in
  ∃ cells text,
    joined_rows first later !! 0%nat = Some cells ∧
    cells !! 1%nat = Some text ∧
    parse_cell text = Ok None ∧ ((None : option Z) = None ↔ text = "|").
Proof.
  intros first later.
  apply (parse_path_entry first later ["A"; "B"]
           [[Some 480; Some 490]; [None; Some 550]; [Some 600; Some 610]]
           0%nat 1%nat [None; Some 550] None).
  - vm_compute. reflexivity.
  - reflexivity.
  - reflexivity.
Defined.

Lemma fetch_loop_assertion (stops : list string) timetable
    (rows : list (list string)) (good : list page) (p : page)
    (rest : list page) :
  page_ok stops (Page [] rows) → Forall (page_ok stops) good →
  length (page_rows p) ≠ length stops →
  fetch_loop stops timetable rows (good ++ p :: rest)
  = Raise (AssertionError (length stops, length (page_rows p))).
Proof.
  intros Hrows Hgood Hbad. revert timetable rows Hrows.
  induction Hgood as [|g good Hg _ IH]; intros timetable rows [Hlen Hcells];
    simpl in *.
  - rewrite bool_decide_eq_true_2 by done.
    destruct (extend_rows_ok timetable rows Hcells) as [tt ->]; simpl.
    destruct rest; simpl; by rewrite bool_decide_eq_false_2.
  - rewrite bool_decide_eq_true_2 by done.
    destruct (extend_rows_ok timetable rows Hcells) as [tt ->]; simpl.
    apply IH. exact Hg.
Qed.

(** The first page whose number of rows differs from the number of stops
    read off the first page stops the builder with the [AssertionError] of
    line 42, carrying the two numbers; no route comes back, whatever the
    pages before it held. *)
Theorem parse_path_assertion (first : page) (later good rest : list page)
    (p : page) :
  first :: later = good ++ p :: rest →
  Forall (page_ok (page_stops first)) good →
  length (page_rows p) ≠ length (page_stops first) →
  parse_path first later
  = Raise (AssertionError (length (page_stops first), length (page_rows p))).
Proof.
  intros Hpages Hgood Hbad. unfold parse_path, accumulate.
  destruct good as [|g good]; simplify_eq/=.
  - destruct rest; simpl; by rewrite bool_decide_eq_false_2.
  - apply Forall_cons in Hgood as [[Hlen Hcells] Hgood].
    rewrite fetch_loop_assertion; [done| |done..].
    split; [done|]. exact Hcells.
Qed.

Lemma parse_path_assertion_witness :
  let first := Page ["A"; "B"] [["8:00"]; ["8:10"]] in
  let second := Page [] [["9:00"]] in
  parse_path first [second]
  = Raise (AssertionError (length (page_stops first),
                           length (page_rows second))).
Proof.
  intros first second.
  apply (parse_path_assertion first [second] [first] [] second).
  - reflexivity.
  - apply Forall_cons_2; [|apply Forall_nil_2].
    split; [reflexivity|].
    repeat first
      [ apply Forall_nil_2 | apply Forall_cons_2
      | eexists; vm_compute; reflexivity ].
  - vm_compute. lia.
Defined.

(** ** The steps of [main] *)

Section main_runs.
Variable load_config : string → result (gmap string (gmap string Z)).
Variable parse_line : string → string → string → result linedata.
Variable get_text get_latex : tables → string.

Lemma fetch_lines_error (date operator : string) (fetched : list string)
    (line : string) (rest : list string)
    (linesdata : list (string * linedata)) (e : exn) :
  Forall2 (λ line d, d.1 = line ∧ parse_line line date operator = Ok d.2)
          fetched linesdata →
  parse_line line date operator = Raise e →
  run_io (fetch_lines parse_line date operator (fetched ++ line :: rest))
  = ((λ line, EvParseLine line date operator) <$> (fetched ++ [line]),
     Raise e).
Proof.
  intros Hfetched Hline.
  induction Hfetched as [|l [l' d] fetched linesdata [Hl Hd] _ IH];
    simpl in *.
  - unfold mbind, io_bind; simpl. by rewrite Hline.
  - subst l'. unfold mbind, io_bind; simpl. rewrite Hd; simpl.
    by rewrite IH.
Qed.

Lemma fetch_lines_events (date operator : string) (lines : list string) :
  Forall (λ ev, ∃ line, ev = EvParseLine line date operator)
         (run_io (fetch_lines parse_line date operator lines)).1.
Proof.
  induction lines as [|line lines IH]; simpl; [constructor|].
  unfold mbind, io_bind; simpl.
  destruct (parse_line line date operator) as [d|e]; simpl.
  - destruct (run_io (fetch_lines parse_line date operator lines))
      as [tr [l|e]]; simpl in *.
    + constructor; [by eexists|]. by rewrite app_nil_r.
    + constructor; [by eexists|done].
  - constructor; [by eexists|constructor].
Qed.

(** With a supported format, a readable configuration that has both
    anchors, and every line fetched, [main] reads the configuration,
    fetches the lines in the order of the command line, builds the tables
    once and prints the rendering of the chosen format. *)
Theorem main_success (c : cli) (f : string) config linesdata home office
    tbls :
  cli_format c = Some f → f ∈ format_choices → cli_lines c ≠ [] →
  load_config (cli_config c) = Ok config →
  Forall2 (λ line d,
             d.1 = line ∧
             parse_line line (cli_date c)
               (default "Envibus" (cli_operator c)) = Ok d.2)
          (cli_lines c) linesdata →
  config !! "home" = Some home → config !! "office" = Some office →
  build_table linesdata home office = Ok tbls →
  run_io (main load_config parse_line get_text get_latex c)
  = (EvLoadConfig (cli_config c)
     :: ((λ line, EvParseLine line (cli_date c)
                    (default "Envibus" (cli_operator c))) <$> cli_lines c)
     ++ [EvBuildTable;
         EvPrint ((if decide (f = "text") then get_text else get_latex)
                    tbls)],
     Ok ()).
Proof.
  intros Hf Hchoice Hlines Hconfig Hfetch Hhome Hoffice Htbls.
  unfold main, parse_args. rewrite Hf; simpl.
  rewrite (bool_decide_eq_false_2 _ Hlines).
  rewrite (bool_decide_eq_true_2 _ Hchoice).
  unfold mbind, io_bind; simpl. rewrite Hconfig; simpl.
  rewrite (fetch_lines_ok _ _ _ _ _ Hfetch); simpl.
  unfold getitem. rewrite Hhome, Hoffice; simpl. rewrite Htbls; simpl.
  assert (f = "text" ∨ f = "latex") as [->| ->].
  { unfold format_choices in Hchoice. set_solver. }
  - done.
  - done.
Qed.

(** When the configuration file cannot be read, nothing is fetched. *)
Theorem main_config_error (c : cli) (e : exn) :
  cli_lines c ≠ [] → check_choice (cli_format c) = true →
  load_config (cli_config c) = Raise e →
  run_io (main load_config parse_line get_text get_latex c)
  = ([EvLoadConfig (cli_config c)], Raise e).
Proof.
  intros Hlines Hchoice Hconfig. unfold main, parse_args.
  rewrite (bool_decide_eq_false_2 _ Hlines), Hchoice.
  unfold mbind, io_bind; simpl. by rewrite Hconfig.
Qed.

(** The first line that cannot be fetched ends the program with the
    error of the fetch: the lines after it are not fetched and no table
    is built. *)
Theorem main_fetch_error (c : cli) config (fetched : list string)
    (line : string) (rest : list string)
    (linesdata : list (string * linedata)) (e : exn) :
  check_choice (cli_format c) = true →
  load_config (cli_config c) = Ok config →
  cli_lines c = fetched ++ line :: rest →
  Forall2 (λ line d,
             d.1 = line ∧
             parse_line line (cli_date c)
               (default "Envibus" (cli_operator c)) = Ok d.2)
          fetched linesdata →
  parse_line line (cli_date c) (default "Envibus" (cli_operator c))
  = Raise e →
  run_io (main load_config parse_line get_text get_latex c)
  = (EvLoadConfig (cli_config c)
     :: ((λ line, EvParseLine line (cli_date c)
                    (default "Envibus" (cli_operator c)))
         <$> (fetched ++ [line])),
     Raise e).
Proof.
  intros Hchoice Hconfig Hlines Hfetched Hline. unfold main, parse_args.
  rewrite bool_decide_eq_false_2
    by (rewrite Hlines; by destruct fetched).
  rewrite Hchoice. unfold mbind, io_bind; simpl. rewrite Hconfig; simpl.
  rewrite Hlines. by rewrite (fetch_lines_error _ _ _ _ _ _ _ Hfetched Hline).
Qed.

(** A configuration without the "home" or the "office" entry is noticed
    only after every line has been fetched: the program then ends with
    [KeyError], before any table is built. *)
Theorem main_missing_anchor (c : cli) config linesdata :
  cli_lines c ≠ [] → check_choice (cli_format c) = true →
  load_config (cli_config c) = Ok config →
  Forall2 (λ line d,
             d.1 = line ∧
             parse_line line (cli_date c)
               (default "Envibus" (cli_operator c)) = Ok d.2)
          (cli_lines c) linesdata →
  config !! "home" = None ∨ config !! "office" = None →
  run_io (main load_config parse_line get_text get_latex c)
  = (EvLoadConfig (cli_config c)
     :: ((λ line, EvParseLine line (cli_date c)
                    (default "Envibus" (cli_operator c))) <$> cli_lines c),
     Raise KeyError).
Proof.
  intros Hlines Hchoice Hconfig Hfetch Hmissing. unfold main, parse_args.
  rewrite (bool_decide_eq_false_2 _ Hlines), Hchoice.
  unfold mbind, io_bind; simpl. rewrite Hconfig; simpl.
  rewrite (fetch_lines_ok _ _ _ _ _ Hfetch); simpl. unfold getitem.
  destruct (config !! "home") as [home|]; simpl.
  - destruct Hmissing as [?| ->]; [done|]. simpl. by rewrite app_nil_r.
  - by rewrite app_nil_r.
Qed.

(** Whatever the collaborators do, [main] prints only when every step
    before has succeeded: a run that prints returns normally. *)
Theorem main_prints_only_on_success (c : cli) (text : string) :
  EvPrint text ∈ (run_io (main load_config parse_line get_text get_latex c)).1 →
  (run_io (main load_config parse_line get_text get_latex c)).2 = Ok ().
Proof.
  unfold main. destruct (parse_args c) as [a|e]; simpl;
    [|by intros ?%elem_of_nil].
  unfold mbind, io_bind; simpl.
  destruct (load_config (args_config a)) as [config|e]; simpl;
    [|by intros [=]%list_elem_of_singleton].
  pose proof (fetch_lines_events (args_date a) (args_operator a)
                (args_lines a)) as Hev.
  assert (EvPrint text ∉
            (run_io (fetch_lines parse_line (args_date a) (args_operator a)
                       (args_lines a))).1) as Hno.
  { intros Hin. apply (proj1 (Forall_forall _ _) Hev) in Hin as [? [=]]. }
  destruct (run_io (fetch_lines parse_line (args_date a) (args_operator a)
                      (args_lines a))) as [tr [linesdata|e]]; simpl in *;
    [|by intros [[=]|?]%elem_of_cons].
  unfold getitem.
  destruct (config !! "home") as [home|]; simpl;
    [|rewrite app_nil_r; by intros [[=]|?]%elem_of_cons].
  destruct (config !! "office") as [office|]; simpl;
    [|rewrite app_nil_r; by intros [[=]|?]%elem_of_cons].
  destruct (build_table linesdata home office) as [tbls|e]; simpl;
    [|intros [[=]|[?|[=]%list_elem_of_singleton]%elem_of_app]%elem_of_cons;
      done].
  destruct (FORMATTING_FUNCTIONS get_text get_latex (args_format a))
    as [f|e]; simpl; [done|].
  intros [[=]|[?|[=]%list_elem_of_singleton]%elem_of_app]%elem_of_cons; done.
Qed.
End main_runs.

Lemma main_success_witness :
  sample_main (Cli "2020-01-06" "config.json" ["1"; "1"] None (Some "latex"))
  = ([EvLoadConfig "config.json";
      EvParseLine "1" "2020-01-06" "Envibus";
      EvParseLine "1" "2020-01-06" "Envibus";
      EvBuildTable; EvPrint "latex"],
     Ok ()).
Proof.
  apply (main_success sample_load_config sample_parse_line sample_get_text
           sample_get_latex
           (Cli "2020-01-06" "config.json" ["1"; "1"] None (Some "latex"))
           "latex"
           {["home" := {["A" := 5]}; "office" := {["C" := 3]}]}
           [("1", sample_linedata); ("1", sample_linedata)]
           {["A" := 5]} {["C" := 3]}
           ((headers, [("7:55-8:23", "(28')", "8:00", "A", "1", "8:20", "C")]),
            (headers, []))).
  - reflexivity.
  - right. by left.
  - done.
  - reflexivity.
  - repeat constructor.
  - reflexivity.
  - reflexivity.
  - vm_compute. reflexivity.
Defined.

Lemma main_config_error_witness :
  sample_main (Cli "2020-01-06" "missing.json" ["1"] None (Some "text"))
  = ([EvLoadConfig "missing.json"],
     Raise (ValueError "Expecting value: line 1 column 1 (char 0)")).
Proof.
  apply (main_config_error sample_load_config sample_parse_line
           sample_get_text sample_get_latex
           (Cli "2020-01-06" "missing.json" ["1"] None (Some "text"))).
  - done.
  - reflexivity.
  - reflexivity.
Defined.

Lemma main_fetch_error_witness :
  sample_main (Cli "2020-01-06" "config.json" ["1"; "7"; "1"] None
                 (Some "text"))
  = ([EvLoadConfig "config.json";
      EvParseLine "1" "2020-01-06" "Envibus";
      EvParseLine "7" "2020-01-06" "Envibus"],
     Raise IndexError).
Proof.
  apply (main_fetch_error sample_load_config sample_parse_line
           sample_get_text sample_get_latex
           (Cli "2020-01-06" "config.json" ["1"; "7"; "1"] None (Some "text"))
           {["home" := {["A" := 5]}; "office" := {["C" := 3]}]}
           ["1"] "7" ["1"] [("1", sample_linedata)]).
  - reflexivity.
  - reflexivity.
  - reflexivity.
  - repeat constructor.
  - reflexivity.
Defined.

Lemma main_missing_anchor_witness :
  sample_main (Cli "2020-01-06" "home-only.json" ["1"] None (Some "text"))
  = ([EvLoadConfig "home-only.json";
      EvParseLine "1" "2020-01-06" "Envibus"],
     Raise KeyError).
Proof.
  apply (main_missing_anchor sample_load_config sample_parse_line
           sample_get_text sample_get_latex
           (Cli "2020-01-06" "home-only.json" ["1"] None (Some "text"))
           {["home" := {["A" := 5]}]} [("1", sample_linedata)]).
  - done.
  - reflexivity.
  - reflexivity.
  - repeat constructor.
  - right. reflexivity.
Defined.

Lemma main_prints_only_on_success_witness :
  (sample_main (Cli "2020-01-06" "config.json" ["1"] None (Some "text"))).2
  = Ok ().
Proof.
  apply (main_prints_only_on_success sample_load_config sample_parse_line
           sample_get_text sample_get_latex
           (Cli "2020-01-06" "config.json" ["1"] None (Some "text")) "text").
  vm_compute. right. right. right. left.
Defined.

Lemma main_invalid_choice_witness :
  sample_main (Cli "2020-01-06" "config.json" ["1"] None (Some "html"))
  = ([], Raise (SystemExit 2)).
Proof.
  apply (main_invalid_choice sample_load_config sample_parse_line
           sample_get_text sample_get_latex
           (Cli "2020-01-06" "config.json" ["1"] None (Some "html")) "html").
  - reflexivity.
  - unfold format_choices. intros Hin.
    apply elem_of_cons in Hin as [Hin|Hin]; [done|].
    apply elem_of_cons in Hin as [Hin|Hin]; [done|].
    by apply elem_of_nil in Hin.
Defined.

Lemma main_missing_format_witness :
  sample_main (Cli "2020-01-06" "config.json" ["1"] None None)
  = ([EvLoadConfig "config.json";
      EvParseLine "1" "2020-01-06" "Envibus";
      EvBuildTable],
     Raise KeyError).
Proof.
  apply (main_missing_format sample_load_config sample_parse_line
           sample_get_text sample_get_latex
           (Cli "2020-01-06" "config.json" ["1"] None None)
           {["home" := {["A" := 5]}; "office" := {["C" := 3]}]}
           [("1", sample_linedata)] {["A" := 5]} {["C" := 3]}
           ((headers, [("7:55-8:23", "(28')", "8:00", "A", "1", "8:20", "C")]),
            (headers, []))).
  - reflexivity.
  - done.
  - reflexivity.
  - repeat constructor.
  - reflexivity.
  - reflexivity.
  - vm_compute. reflexivity.
Defined.
